(** * nodeChat: the session, transition-log and hot-node ranking server

    A shallow embedding of the chat server (the socket handlers
    [userSetup], [joinNodeAndLogTransition], [sendMessage],
    [getRecommendation] and the HTTP route [/hot-nodes]) together with the
    properties its specification states about them, followed by the state
    and handlers of the browser client that talk to it and by further
    properties of both.

    Modelling conventions.
    - A MongoDB collection is the list of its documents in insertion order.
      [findOneAndUpdate] with [upsert] rewrites the first matching document
      or appends a new one (schema defaults applied on insert).
    - [_id] values are drawn from a counter kept in the store.
    - [new Date()] / [Date.now()] is a parameter [now] (milliseconds) of every
      handler; dates are integers.
    - JavaScript Numbers are modelled by exact arithmetic: counters and
      durations are integers, the average dwell is a rational, the score is a
      real number.  Binary64 rounding is not modelled, except for the
      saturated example, which is also evaluated in binary64.
    - [$group] emits its groups in order of first appearance and
      [$addToSet] appends; MongoDB leaves both orders open.
    - A handler returns the new store and the list of effects it performed
      on the connection (emits, broadcasts, room joins, console output). *)

From Stdlib Require Import List String Ascii ZArith Lia Bool Arith.
From Stdlib Require Import QArith Qreals Reals Lra.
From Stdlib Require Floats.PrimFloat.
From Stdlib Require Import Sorting.Sorted Sorting.Permutation.
Import ListNotations.

Local Open Scope string_scope.
Local Open Scope list_scope.
Local Open Scope Z_scope.

(** ** 1. Data model (the four mongoose schemas) *)

Definition ObjectId := nat.
Definition Date := Z.

Record User := mkUser {
  u_id : ObjectId;
  localId : string;
  nickname : string;
  u_createdAt : Date;
  lastSeenAt : Date;
  utmSource : option string;
  utmMedium : option string;
  utmCampaign : option string;
  utmContent : option string;
  utmTerm : option string
}.

Record Node := mkNode {
  n_id : ObjectId;
  roomKey : string;
  n_createdAt : Date;
  creatorId : option ObjectId;
  lastActivityAt : Date;
  messageCount : Z;
  visitCount : Z
}.

Record Message := mkMessage {
  m_id : ObjectId;
  nodeId : ObjectId;
  m_userId : ObjectId;
  text : string;
  m_createdAt : Date
}.

Record Transition := mkTransition {
  t_id : ObjectId;
  t_userId : ObjectId;
  fromNodeId : option ObjectId;
  toNodeId : ObjectId;
  transitionType : option string;
  t_createdAt : Date;
  duration : Z
}.

Record Store := mkStore {
  users : list User;
  nodes : list Node;
  messages : list Message;
  transitions : list Transition;
  nextId : ObjectId
}.

(** What a handler does to the outside world. *)
Record HistoryItem := mkItem {
  h_text : string;
  h_userId : ObjectId;
  h_senderNickname : string;
  h_createdAt : Date
}.

Inductive Effect :=
| EmitSessionEstablished (userId : ObjectId) (nick : string)
| EmitHistory (items : list HistoryItem)
| BroadcastReceiveMessage (room : string) (item : HistoryItem)
| EmitRecommendationResult (recommendedKey : option string)
| SocketLeave (room : string)
| SocketJoin (room : string)
| ConsoleLog (line : string)
| ConsoleError (line : string).

Definition is_reply (e : Effect) : bool :=
  match e with
  | EmitSessionEstablished _ _ | EmitHistory _
  | BroadcastReceiveMessage _ _ | EmitRecommendationResult _ => true
  | _ => false
  end.

Definition is_console (e : Effect) : bool :=
  match e with
  | ConsoleLog _ | ConsoleError _ => true
  | _ => false
  end.

(** ** 2. JavaScript and MongoDB primitives *)

(** Truthiness of a payload field that is a string or absent. *)
Definition truthy (v : option string) : option string :=
  match v with
  | Some s => if String.eqb s "" then None else Some s
  | None => None
  end.

Section Collection.
Context {A : Type}.

(** [Model.findOne(filter)]: first document that matches. *)
Fixpoint findOne (p : A -> bool) (c : list A) : option A :=
  match c with
  | [] => None
  | d :: c' => if p d then Some d else findOne p c'
  end.

(** The update half of [findOneAndUpdate]: rewrite the first match. *)
Fixpoint updateFirst (p : A -> bool) (f : A -> A) (c : list A) : list A :=
  match c with
  | [] => []
  | d :: c' => if p d then f d :: c' else d :: updateFirst p f c'
  end.

(** [findOneAndUpdate(filter, update, {upsert: true, new: true})]:
    the updated document if one matches, else the inserted one. *)
Definition findOneAndUpdate (p : A -> bool) (f : A -> A) (fresh : A)
           (c : list A) : A * list A :=
  match findOne p c with
  | Some d => (f d, updateFirst p f c)
  | None => (fresh, c ++ [fresh])
  end.
End Collection.

(** ** 3. [userSetup] *)

Record Utm := mkUtm {
  source : option string;
  medium : option string;
  campaign : option string;
  content : option string;
  term : option string
}.

(** The payload: [localId] and [nickname] are the strings the client
    sends; [utm] may be absent, and each of its fields absent or empty. *)
Record UserSetupData := mkUserSetup {
  us_localId : string;
  us_nickname : string;
  us_utm : option Utm
}.

(** The [updateFields] object: a UTM key is present only when the payload
    carries a non-empty value for it. *)
Record UpdateFields := mkUpdateFields {
  uf_nickname : string;
  uf_lastSeenAt : Date;
  uf_utmSource : option string;
  uf_utmMedium : option string;
  uf_utmCampaign : option string;
  uf_utmContent : option string;
  uf_utmTerm : option string
}.

Definition updateFields (now : Date) (d : UserSetupData) : UpdateFields :=
  let pick (f : Utm -> option string) :=
    match us_utm d with
    | Some utm => truthy (f utm)
    | None => None
    end in
  {| uf_nickname := us_nickname d;
     uf_lastSeenAt := now;
     uf_utmSource := pick source;
     uf_utmMedium := pick medium;
     uf_utmCampaign := pick campaign;
     uf_utmContent := pick content;
     uf_utmTerm := pick term |}.

(** [$set] of one optional key: overwrite when present, keep otherwise. *)
Definition set_opt (new old : option string) : option string :=
  match new with
  | Some v => Some v
  | None => old
  end.

Definition user_set (uf : UpdateFields) (u : User) : User :=
  {| u_id := u_id u;
     localId := localId u;
     nickname := uf_nickname uf;
     u_createdAt := u_createdAt u;
     lastSeenAt := uf_lastSeenAt uf;
     utmSource := set_opt (uf_utmSource uf) (utmSource u);
     utmMedium := set_opt (uf_utmMedium uf) (utmMedium u);
     utmCampaign := set_opt (uf_utmCampaign uf) (utmCampaign u);
     utmContent := set_opt (uf_utmContent uf) (utmContent u);
     utmTerm := set_opt (uf_utmTerm uf) (utmTerm u) |}.

(** The document an upsert inserts: [$setOnInsert] plus [$set]. *)
Definition user_insert (now : Date) (id : ObjectId) (lid : string)
           (uf : UpdateFields) : User :=
  user_set uf
    {| u_id := id; localId := lid; nickname := "";
       u_createdAt := now; lastSeenAt := now;
       utmSource := None; utmMedium := None; utmCampaign := None;
       utmContent := None; utmTerm := None |}.

Definition by_localId (lid : string) (u : User) : bool :=
  String.eqb (localId u) lid.

Definition userSetup (now : Date) (d : UserSetupData) (s : Store)
  : Store * list Effect :=
  let uf := updateFields now d in
  let '(user, users') :=
    findOneAndUpdate (by_localId (us_localId d)) (user_set uf)
                     (user_insert now (nextId s) (us_localId d) uf)
                     (users s) in
  ({| users := users'; nodes := nodes s; messages := messages s;
      transitions := transitions s; nextId := S (nextId s) |},
   [ ConsoleLog "[userSetup]";
     EmitSessionEstablished (u_id user) (nickname user) ]).

(** ** 4. [joinNodeAndLogTransition] *)

(** The payload: an absent field is [None].  A [userId] that is present is
    a well-formed ObjectId (the client echoes the one it was given), and
    [duration] is the whole number of seconds the client measured. *)
Record JoinData := mkJoin {
  jd_userId : option ObjectId;
  jd_fromNodeKey : option string;
  jd_toNodeKey : option string;
  jd_duration : option Z;
  jd_transitionType : option string
}.

Definition by_roomKey (k : string) (n : Node) : bool :=
  String.eqb (roomKey n) k.

(** Schema defaults of a Node inserted by an upsert on [roomKey]. *)
Definition node_default (now : Date) (id : ObjectId) (k : string) : Node :=
  {| n_id := id; roomKey := k; n_createdAt := now; creatorId := None;
     lastActivityAt := now; messageCount := 0; visitCount := 0 |}.

(** [{ $inc: { visitCount: 1 }, $set: { lastActivityAt: new Date() } }] *)
Definition node_visit (now : Date) (n : Node) : Node :=
  {| n_id := n_id n; roomKey := roomKey n; n_createdAt := n_createdAt n;
     creatorId := creatorId n; lastActivityAt := now;
     messageCount := messageCount n; visitCount := visitCount n + 1 |}.

Definition node_set_creator (uid : ObjectId) (n : Node) : Node :=
  {| n_id := n_id n; roomKey := roomKey n; n_createdAt := n_createdAt n;
     creatorId := Some uid; lastActivityAt := lastActivityAt n;
     messageCount := messageCount n; visitCount := visitCount n |}.

Definition with_nodes (s : Store) (ns : list Node) : Store :=
  {| users := users s; nodes := ns; messages := messages s;
     transitions := transitions s; nextId := S (nextId s) |}.

(** The [fromNode] upsert: only [$setOnInsert: { roomKey }]. *)
Definition resolveFromNode (now : Date) (k : string) (s : Store)
  : Node * Store :=
  let '(n, ns) :=
    findOneAndUpdate (by_roomKey k) (fun n => n)
                     (node_default now (nextId s) k) (nodes s) in
  (n, with_nodes s ns).

(** The [toNode] upsert: [$inc], [$set] and
    [$setOnInsert: { roomKey, creatorId }]. *)
Definition resolveToNode (now : Date) (k : string) (uid : ObjectId)
           (s : Store) : Node * Store :=
  let '(n, ns) :=
    findOneAndUpdate (by_roomKey k) (node_visit now)
      (node_visit now (node_set_creator uid (node_default now (nextId s) k)))
      (nodes s) in
  (n, with_nodes s ns).

Definition Transition_create (now : Date) (uid : ObjectId)
           (from : option ObjectId) (to : ObjectId)
           (ty : option string) (dur : option Z) (s : Store) : Store :=
  {| users := users s; nodes := nodes s; messages := messages s;
     transitions := transitions s ++
       [ {| t_id := nextId s; t_userId := uid; fromNodeId := from;
            toNodeId := to; transitionType := ty; t_createdAt := now;
            duration := match dur with Some d => d | None => 0 end |} ];
     nextId := S (nextId s) |}.

Section StableSort.
Context {A : Type} (before : A -> A -> bool).

(** A stable sort: [before x y] tells that [x], met first, may stay in
    front of [y].  Both [cursor.sort] on one key and
    [Array.prototype.sort] with a consistent comparator denote it. *)
Fixpoint insert_sorted (x : A) (l : list A) : list A :=
  match l with
  | [] => [x]
  | y :: l' => if before x y then x :: l else y :: insert_sorted x l'
  end.

Fixpoint stable_sort (l : list A) : list A :=
  match l with
  | [] => []
  | x :: l' => insert_sorted x (stable_sort l')
  end.
End StableSort.

(** [cursor.limit(n)]: MongoDB reads a limit of 0 as no limit. *)
Definition cursor_limit {A : Type} (n : nat) (l : list A) : list A :=
  match n with
  | O => l
  | _ => firstn n l
  end.

Definition createdAt_asc (a b : Message) : bool :=
  m_createdAt a <=? m_createdAt b.

(** [Message.find({ nodeId }).sort({ createdAt: 1 }).limit(limit)] *)
Definition fetchHistory (roomId : ObjectId) (limit : nat)
           (ms : list Message) : list Message :=
  cursor_limit limit
    (stable_sort createdAt_asc
       (filter (fun m => Nat.eqb (nodeId m) roomId) ms)).

(** [populate("userId", "nickname")] followed by the [map] that reads
    [msg.userId._id]: a message whose sender is not in the [users]
    collection makes the map throw. *)
Fixpoint formatHistory (us : list User) (ms : list Message)
  : option (list HistoryItem) :=
  match ms with
  | [] => Some []
  | m :: ms' =>
      match findOne (fun u => Nat.eqb (u_id u) (m_userId m)) us,
            formatHistory us ms' with
      | Some u, Some items =>
          Some ({| h_text := text m; h_userId := u_id u;
                   h_senderNickname := nickname u;
                   h_createdAt := m_createdAt m |} :: items)
      | _, _ => None
      end
  end.

Definition HISTORY_LIMIT : nat := 50.

Definition joinNodeAndLogTransition (now : Date) (d : JoinData) (s : Store)
  : Store * list Effect :=
  match jd_userId d, truthy (jd_toNodeKey d) with
  | Some userId, Some toNodeKey =>
      let '(fromNode, s1) :=
        match truthy (jd_fromNodeKey d) with
        | Some fromNodeKey =>
            let '(n, s') := resolveFromNode now fromNodeKey s in (Some n, s')
        | None => (None, s)
        end in
      let '(toNode, s2) := resolveToNode now toNodeKey userId s1 in
      let s3 :=
        Transition_create now userId (option_map n_id fromNode) (n_id toNode)
                          (jd_transitionType d) (jd_duration d) s2 in
      let rooms :=
        match truthy (jd_fromNodeKey d) with
        | Some fromNodeKey => [SocketLeave fromNodeKey]
        | None => []
        end ++ [SocketJoin toNodeKey] in
      let history := fetchHistory (n_id toNode) HISTORY_LIMIT (messages s3) in
      match formatHistory (users s3) history with
      | Some formattedHistory => (s3, rooms ++ [EmitHistory formattedHistory])
      | None => (s3, rooms ++ [ConsoleError "[join] failed"])
      end
  | _, _ => (s, [])
  end.

(** ** 5. [sendMessage] *)

Record SendData := mkSend {
  sd_userId : option ObjectId;
  sd_nodeKey : option string;
  sd_text : string
}.

(** [{ $inc: { messageCount: 1 }, $set: { lastActivityAt: new Date() } }] *)
Definition node_message (now : Date) (n : Node) : Node :=
  {| n_id := n_id n; roomKey := roomKey n; n_createdAt := n_createdAt n;
     creatorId := creatorId n; lastActivityAt := now;
     messageCount := messageCount n + 1; visitCount := visitCount n |}.

Definition sendMessage (now : Date) (d : SendData) (s : Store)
  : Store * list Effect :=
  let node :=
    match sd_nodeKey d with
    | Some k => findOne (by_roomKey k) (nodes s)
    | None => None
    end in
  match sd_userId d, node, sd_nodeKey d with
  | Some userId, Some node, Some nodeKey =>
      let newMessage :=
        {| m_id := nextId s; nodeId := n_id node; m_userId := userId;
           text := sd_text d; m_createdAt := now |} in
      let s' :=
        {| users := users s;
           nodes := updateFirst (fun n => Nat.eqb (n_id n) (n_id node))
                                (node_message now) (nodes s);
           messages := messages s ++ [newMessage];
           transitions := transitions s;
           nextId := S (nextId s) |} in
      match findOne (fun u => Nat.eqb (u_id u) userId) (users s') with
      | Some user =>
          (s', [ BroadcastReceiveMessage nodeKey
                   {| h_text := text newMessage; h_userId := u_id user;
                      h_senderNickname := nickname user;
                      h_createdAt := m_createdAt newMessage |} ])
      | None => (s', [ConsoleError "[sendMessage] failed"])
      end
  | _, _, _ => (s, [])
  end.

(** ** 6. [getRecommendation] *)

(** [{ $sample: { size: 1 } }]: one document of a non-empty input, chosen
    by the random draw [rnd]. *)
Definition sample1 {A : Type} (rnd : nat) (l : list A) : list A :=
  match nth_error l (rnd mod List.length l)%nat with
  | Some d => [d]
  | None => []
  end.

Definition recommendation (rnd : nat) (key : string) (s : Store)
  : list Node :=
  sample1 rnd (filter (fun n => negb (String.eqb (roomKey n) key)) (nodes s)).

(** The handler of the server that also serves [/hot-nodes]. *)
Definition getRecommendation (rnd : nat) (key : string) (s : Store)
  : list Effect :=
  match recommendation rnd key s with
  | n :: _ => [EmitRecommendationResult (Some (roomKey n))]
  | [] => [EmitRecommendationResult None]
  end.

(** The earlier server file: the same handler without the [else] branch. *)
Module ServerV1.
Definition getRecommendation (rnd : nat) (key : string) (s : Store)
  : list Effect :=
  match recommendation rnd key s with
  | n :: _ => [EmitRecommendationResult (Some (roomKey n))]
  | [] => []
  end.
End ServerV1.

(** ** 7. [GET /hot-nodes] *)

(** *** 7.1 Query parameters: [parseInt(x) || default]

    A query parameter is a string or absent.  [parseInt] yields the exact
    integer it reads ([None] stands for NaN); strings are taken to be ASCII
    and the rounding of integers beyond 2^53 is not modelled. *)

Definition is_white (c : ascii) : bool :=
  match nat_of_ascii c with
  | 9%nat | 10%nat | 11%nat | 12%nat | 13%nat | 32%nat => true
  | _ => false
  end.

Fixpoint trimStart (s : string) : string :=
  match s with
  | String c s' => if is_white c then trimStart s' else s
  | EmptyString => EmptyString
  end.

Definition digit_of (radix : Z) (c : ascii) : option Z :=
  let n := Z.of_nat (nat_of_ascii c) in
  let v :=
    if (48 <=? n) && (n <=? 57) then Some (n - 48)
    else if (97 <=? n) && (n <=? 122) then Some (n - 87)
    else if (65 <=? n) && (n <=? 90) then Some (n - 55)
    else None in
  match v with
  | Some d => if d <? radix then Some d else None
  | None => None
  end.

(** Value of the longest prefix of digits; [acc] is [None] until a digit
    has been read. *)
Fixpoint parse_digits (radix : Z) (acc : option Z) (s : string) : option Z :=
  match s with
  | String c s' =>
      match digit_of radix c with
      | Some d =>
          parse_digits radix
            (Some (match acc with Some a => a * radix + d | None => d end)) s'
      | None => acc
      end
  | EmptyString => acc
  end.

Definition parseInt (input : option string) : option Z :=
  match input with
  | None => None
  | Some str =>
      let s := trimStart str in
      let '(sign, s) :=
        match s with
        | String "-" r => (-1, r)
        | String "+" r => (1, r)
        | _ => (1, s)
        end in
      let '(radix, s) :=
        match s with
        | String "0" (String "x" r) | String "0" (String "X" r) => (16, r)
        | _ => (10, s)
        end in
      match parse_digits radix None s with
      | Some v => Some (sign * v)
      | None => None
      end
  end.

(** [v || d] on a Number: NaN and zero are falsy. *)
Definition or_default (v : option Z) (d : Z) : Z :=
  match v with
  | Some 0 | None => d
  | Some z => z
  end.

Record Query := mkQuery {
  q_hours : option string;
  q_limit : option string;
  q_minVisits : option string
}.

Definition param_hours (q : Query) : Z := or_default (parseInt (q_hours q)) 24.
Definition param_limit (q : Query) : Z := or_default (parseInt (q_limit q)) 5.
Definition param_minVisits (q : Query) : Z :=
  or_default (parseInt (q_minVisits q)) 1.

(** *** 7.2 The aggregation pipeline *)

Record Group := mkGroup {
  g_id : ObjectId;
  g_totalVisits : Z;
  g_uniqueUsers : list ObjectId;
  g_totalDuration : Z;
  g_lastActivity : Date
}.

(** [$addToSet] *)
Definition addToSet (x : ObjectId) (l : list ObjectId) : list ObjectId :=
  if existsb (Nat.eqb x) l then l else l ++ [x].

Definition group_new (t : Transition) : Group :=
  {| g_id := toNodeId t; g_totalVisits := 1; g_uniqueUsers := [t_userId t];
     g_totalDuration := duration t; g_lastActivity := t_createdAt t |}.

Definition group_acc (t : Transition) (g : Group) : Group :=
  {| g_id := g_id g;
     g_totalVisits := g_totalVisits g + 1;
     g_uniqueUsers := addToSet (t_userId t) (g_uniqueUsers g);
     g_totalDuration := g_totalDuration g + duration t;
     g_lastActivity := Z.max (g_lastActivity g) (t_createdAt t) |}.

Fixpoint group_add (t : Transition) (gs : list Group) : list Group :=
  match gs with
  | [] => [group_new t]
  | g :: gs' =>
      if Nat.eqb (g_id g) (toNodeId t) then group_acc t g :: gs'
      else g :: group_add t gs'
  end.

(** [$group] by [toNodeId]; groups come out in order of first appearance. *)
Definition group_by_toNodeId (ts : list Transition) : list Group :=
  fold_left (fun gs t => group_add t gs) ts [].

Record HotNode := mkHotNode {
  hn_roomKey : string;
  totalVisits : Z;
  uniqueUsersCount : nat;
  avgDurationPerVisit : Q;
  lastActivity : Date;
  createdAt : Date
}.

(** [$lookup] into [nodes], [$unwind] and [$project]. *)
Definition lookup_project (ns : list Node) (g : Group) : list HotNode :=
  map (fun n =>
         {| hn_roomKey := roomKey n;
            totalVisits := g_totalVisits g;
            uniqueUsersCount := List.length (g_uniqueUsers g);
            avgDurationPerVisit :=
              if g_totalVisits g =? 0 then 0%Q
              else (inject_Z (g_totalDuration g) / inject_Z (g_totalVisits g))%Q;
            lastActivity := g_lastActivity g;
            createdAt := n_createdAt n |})
      (filter (fun n => Nat.eqb (n_id n) (g_id g)) ns).

Definition MS_PER_HOUR : Z := 1000 * 60 * 60.

(** [cutoffDate.setHours(cutoffDate.getHours() - hours)], with no change of
    the local clock offset in between. *)
Definition cutoffDate (now : Date) (hours : Z) : Date :=
  now - hours * MS_PER_HOUR.

Definition aggregatedData (now : Date) (hours minVisits : Z) (s : Store)
  : list HotNode :=
  filter (fun h => minVisits <=? totalVisits h)
    (flat_map (lookup_project (nodes s))
       (group_by_toNodeId
          (filter (fun t => cutoffDate now hours <=? t_createdAt t)
                  (transitions s)))).

(** *** 7.3 The curation score *)

Record ScoredNode := mkScored {
  sn_node : HotNode;
  score : R
}.

Definition VISIT_WEIGHT : R := 0.5.
Definition USER_WEIGHT : R := 0.8.
Definition DURATION_WEIGHT : R := 0.3.
Definition RECENCY_WEIGHT : R := 1.2.
Definition CREATION_RECENCY_WEIGHT : R := 0.5.

Definition maxVisits : R := 100.
Definition maxUsers : R := 20.
Definition maxDuration : R := 300.

Definition scoreNode (now : Date) (node : HotNode) : ScoredNode :=
  let normalizedVisits := Rmin (IZR (totalVisits node) / maxVisits) 1 in
  let normalizedUsers := Rmin (INR (uniqueUsersCount node) / maxUsers) 1 in
  let normalizedDuration :=
    Rmin (Q2R (avgDurationPerVisit node) / maxDuration) 1 in
  let timeDiffHoursLastActivity :=
    (IZR (now - lastActivity node) / IZR MS_PER_HOUR)%R in
  let recencyScoreLastActivity := exp (- timeDiffHoursLastActivity / 12) in
  let timeDiffHoursCreatedAt :=
    (IZR (now - createdAt node) / IZR MS_PER_HOUR)%R in
  let recencyScoreCreatedAt := exp (- timeDiffHoursCreatedAt / 24) in
  {| sn_node := node;
     score := (normalizedVisits * VISIT_WEIGHT +
               normalizedUsers * USER_WEIGHT +
               normalizedDuration * DURATION_WEIGHT +
               recencyScoreLastActivity * RECENCY_WEIGHT +
               recencyScoreCreatedAt * CREATION_RECENCY_WEIGHT)%R |}.

(** The comparator [(a, b) => b.score - a.score]: [a] stays in front of [b]
    unless the difference is positive. *)
Definition score_desc (a b : ScoredNode) : bool :=
  if Rlt_dec 0 (score b - score a) then false else true.

(** [Array.prototype.slice(0, end)] *)
Definition slice0 {A : Type} (end_ : Z) (l : list A) : list A :=
  let len := Z.of_nat (List.length l) in
  let k := if end_ <? 0 then Z.max (len + end_) 0 else Z.min end_ len in
  firstn (Z.to_nat k) l.

Definition rankHotRooms (now : Date) (hours limit minVisits : Z) (s : Store)
  : list ScoredNode :=
  slice0 limit
    (stable_sort score_desc
       (map (scoreNode now) (aggregatedData now hours minVisits s))).

(** The body of the [try] block: parse the three parameters and rank. *)
Definition hot_nodes (now : Date) (q : Query) (s : Store) : list ScoredNode :=
  rankHotRooms now (param_hours q) (param_limit q) (param_minVisits q) s.




(** A Date holds a time value of at most 8.64e15 ms either side of the
    epoch; [setHours] past that leaves an Invalid Date, which the model of
    [cutoffDate] does not cover. *)
Definition MAX_TIME : Z := 8640000000000000.

Definition valid_date (t : Date) : Prop := - MAX_TIME <= t <= MAX_TIME.

(** The same sum for the saturated room in binary64, the arithmetic the
    server runs: the three ratios are [100/100], [20/20] and [300/300], and
    both decays are [Math.exp(-0)], which the language standard fixes
    to 1. *)
Module Binary64.
Import PrimFloat.
#[local] Set Warnings "-inexact-float".

Definition Math_min (a b : float) : float :=
  if PrimFloat.ltb b a then b else a.

Definition saturated_sum (exp_zero : float) : float :=
  (Math_min (100 / 100) 1 * 0.5 +
   Math_min (20 / 20) 1 * 0.8 +
   Math_min (300 / 300) 1 * 0.3 +
   exp_zero * 1.2 +
   exp_zero * 0.5)%float.
End Binary64.

(** The score as the specification writes it. *)
Definition hoursSince (now t : Date) : R :=
  (IZR (now - t) / 3600000)%R.

Definition spec_score (now : Date) (h : HotNode) : R :=
  (Rmin (IZR (totalVisits h) / 100) 1 * 0.5 +
   Rmin (INR (uniqueUsersCount h) / 20) 1 * 0.8 +
   Rmin (Q2R (avgDurationPerVisit h) / 300) 1 * 0.3 +
   exp (- hoursSince now (lastActivity h) / 12) * 1.2 +
   exp (- hoursSince now (createdAt h) / 24) * 0.5)%R.

(** ** 8. Vocabulary of the specification and sample data *)

Definition empty_store : Store :=
  {| users := []; nodes := []; messages := []; transitions := [];
     nextId := 0%nat |}.

(** Last-write-wins on one attribution field: a supplied non-empty value
    replaces the stored one, anything else leaves it. *)
Definition lww (supplied stored result : option string) : Prop :=
  match supplied with
  | Some v => if String.eqb v "" then result = stored else result = Some v
  | None => result = stored
  end.

Definition supplied (d : UserSetupData) (f : Utm -> option string)
  : option string :=
  match us_utm d with
  | Some utm => f utm
  | None => None
  end.

Definition attribution_lww (d : UserSetupData) (old new : User) : Prop :=
  lww (supplied d source) (utmSource old) (utmSource new) /\
  lww (supplied d medium) (utmMedium old) (utmMedium new) /\
  lww (supplied d campaign) (utmCampaign old) (utmCampaign new) /\
  lww (supplied d content) (utmContent old) (utmContent new) /\
  lww (supplied d term) (utmTerm old) (utmTerm new).

(** The store a join works on once the source key has been resolved. *)
Definition after_source (now : Date) (d : JoinData) (s : Store) : Store :=
  match truthy (jd_fromNodeKey d) with
  | Some fk => snd (resolveFromNode now fk s)
  | None => s
  end.

(** What one visit does to a Node document. *)
Definition visited (now : Date) (n n' : Node) : Prop :=
  visitCount n' = visitCount n + 1 /\
  lastActivityAt n' = now /\
  n_id n' = n_id n /\ roomKey n' = roomKey n /\
  n_createdAt n' = n_createdAt n /\ creatorId n' = creatorId n /\
  messageCount n' = messageCount n.


Definition only_room_A : Store :=
  {| users := [];
     nodes := [node_default 0 0%nat "A"];
     messages := []; transitions := []; nextId := 1%nat |}.

(** A message whose [nodeId] and [userId] both point at stored documents. *)
Definition references_ok (s : Store) (m : Message) : Prop :=
  (exists n, In n (nodes s) /\ n_id n = nodeId m) /\
  (exists u, In u (users s) /\ u_id u = m_userId m).

(** User 7, for whom no [userSetup] was ever run, enters room "A". *)
Definition room_A_no_users : Store :=
  fst (joinNodeAndLogTransition 1000
         {| jd_userId := Some 7%nat; jd_fromNodeKey := None;
            jd_toNodeKey := Some "A"; jd_duration := None;
            jd_transitionType := Some "INITIAL" |}
         empty_store).

Definition ghost_send : SendData :=
  {| sd_userId := Some 7%nat; sd_nodeKey := Some "A"; sd_text := "hi" |}.

(** What the specification says of a rejected event: nothing stored, no
    reply, and a console line. *)
Definition dropped_with_log (s : Store) (out : Store * list Effect) : Prop :=
  fst out = s /\
  filter is_reply (snd out) = [] /\
  filter is_console (snd out) <> [].

Definition join_without_user : JoinData :=
  {| jd_userId := None; jd_fromNodeKey := None; jd_toNodeKey := Some "A";
     jd_duration := Some 5; jd_transitionType := Some "INITIAL" |}.















(** Two entries the comparator cannot tell apart. *)
Definition same_score (a b : ScoredNode) : bool :=
  score_desc a b && score_desc b a.

Definition higher_or_same (a b : ScoredNode) : Prop :=
  (score b <= score a)%R.

(** The room of the specification's example: every factor saturated and no
    decay. *)
Definition saturated (now : Date) (key : string) : HotNode :=
  {| hn_roomKey := key; totalVisits := 100; uniqueUsersCount := 20;
     avgDurationPerVisit := 300; lastActivity := now; createdAt := now |}.

Definition join_A_to_B : JoinData :=
  {| jd_userId := Some 7%nat; jd_fromNodeKey := Some "A";
     jd_toNodeKey := Some "B"; jd_duration := Some 30;
     jd_transitionType := Some "GO_COMMAND" |}.

Definition two_rooms : Store :=
  fst (joinNodeAndLogTransition 2000 join_A_to_B room_A_no_users).

(** User 7 walks on from "B" through "C" ... "G": seven rooms entered. *)
Definition walk (src dst : string) : JoinData :=
  {| jd_userId := Some 7%nat; jd_fromNodeKey := Some src;
     jd_toNodeKey := Some dst; jd_duration := Some 30;
     jd_transitionType := Some "GO_COMMAND" |}.

Definition seven_rooms : Store :=
  fold_left
    (fun s hop => fst (joinNodeAndLogTransition 3000 (walk (fst hop) (snd hop)) s))
    [("B", "C"); ("C", "D"); ("D", "E"); ("E", "F"); ("F", "G")]
    two_rooms.

Definition query_limit_minus_one : Query :=
  {| q_hours := None; q_limit := Some "-1"; q_minVisits := None |}.

Definition first_setup : UserSetupData :=
  {| us_localId := "tok-1"; us_nickname := "Brave Tiger";
     us_utm := Some {| source := Some "ad"; medium := Some "cpc";
                       campaign := None; content := None; term := None |} |}.

Definition second_setup : UserSetupData :=
  {| us_localId := "tok-1"; us_nickname := "Calm Lion";
     us_utm := Some {| source := Some ""; medium := Some "mail";
                       campaign := None; content := None; term := None |} |}.

(** Sixty messages of room 0 in posting order, behind one of room 1. *)
Definition message_nr (i : nat) : Message :=
  {| m_id := i; nodeId := 0%nat; m_userId := 7%nat; text := "";
     m_createdAt := Z.of_nat i |}.

Definition sixty_messages : list Message :=
  {| m_id := 0%nat; nodeId := 1%nat; m_userId := 7%nat; text := "";
     m_createdAt := 0 |} :: map message_nr (seq 1 60).

(** One hundred joins into room "A" at time 1000, by users 0..19 in turn. *)
Definition busy_join (i : nat) : JoinData :=
  {| jd_userId := Some (i mod 20)%nat; jd_fromNodeKey := None;
     jd_toNodeKey := Some "A"; jd_duration := Some 300;
     jd_transitionType := Some "INITIAL" |}.

Definition busy_store : Store :=
  fold_left (fun s i => fst (joinNodeAndLogTransition 1000 (busy_join i) s))
            (seq 0 100) empty_store.

(** ** 9. Event sequences and the bookkeeping they keep *)

(** The socket events that reach the store, with the clock reading (or the
    random draw) their handler takes. *)
Inductive Event :=
| UserSetupEv (now : Date) (d : UserSetupData)
| JoinEv (now : Date) (d : JoinData)
| SendEv (now : Date) (d : SendData)
| RecommendEv (rnd : nat) (key : string).

Definition step (e : Event) (s : Store) : Store :=
  match e with
  | UserSetupEv now d => fst (userSetup now d s)
  | JoinEv now d => fst (joinNodeAndLogTransition now d s)
  | SendEv now d => fst (sendMessage now d s)
  | RecommendEv _ _ => s
  end.

Definition run (es : list Event) (s : Store) : Store :=
  fold_left (fun s e => step e s) es s.

(** The source room of a join, as the handler binds it to [fromNode]. *)
Definition source_node (now : Date) (d : JoinData) (s : Store)
  : option Node :=
  match truthy (jd_fromNodeKey d) with
  | Some fk => Some (fst (resolveFromNode now fk s))
  | None => None
  end.

Definition node_ids (s : Store) : list ObjectId := map n_id (nodes s).

(** What the unique indexes, the upserts and the id generator maintain. *)
Record store_ok (s : Store) : Prop := mkStoreOk {
  ok_room_keys : NoDup (map roomKey (nodes s));
  ok_room_ids : NoDup (node_ids s);
  ok_local_ids : NoDup (map localId (users s));
  ok_user_ids : NoDup (map u_id (users s));
  ok_keys_nonempty : Forall (fun n => roomKey n <> "") (nodes s);
  ok_nodes_below : Forall (fun n => (n_id n < nextId s)%nat) (nodes s);
  ok_users_below : Forall (fun u => (u_id u < nextId s)%nat) (users s);
  ok_transitions_to :
    Forall (fun t => In (toNodeId t) (node_ids s)) (transitions s);
  ok_transitions_from :
    Forall (fun t => forall f, fromNodeId t = Some f -> In f (node_ids s))
           (transitions s);
  ok_messages_room : Forall (fun m => In (nodeId m) (node_ids s)) (messages s)
}.

Definition visits_of (id : ObjectId) (ts : list Transition) : Z :=
  Z.of_nat (List.length (filter (fun t => Nat.eqb (toNodeId t) id) ts)).

Definition messages_of (id : ObjectId) (ms : list Message) : Z :=
  Z.of_nat (List.length (filter (fun m => Nat.eqb (nodeId m) id) ms)).

(** A room whose two counters agree with the logs. *)
Definition counted (s : Store) (n : Node) : Prop :=
  visitCount n = visits_of (n_id n) (transitions s) /\
  messageCount n = messages_of (n_id n) (messages s).

Definition counters_ok (s : Store) : Prop := Forall (counted s) (nodes s).

(** What the aggregation says of the window. *)

(** The transitions the ranking looks at. *)
Definition window (now : Date) (hours : Z) (s : Store) : list Transition :=
  filter (fun t => cutoffDate now hours <=? t_createdAt t) (transitions s).

Definition durations_of (id : ObjectId) (ts : list Transition) : Z :=
  fold_right Z.add 0
    (map duration (filter (fun t => Nat.eqb (toNodeId t) id) ts)).

(** The users seen entering room [id] in [ts]. *)
Definition visitor (id : ObjectId) (ts : list Transition) (u : ObjectId)
  : Prop :=
  exists t, In t ts /\ toNodeId t = id /\ t_userId t = u.

(** A group that says of its room what the transitions [ts] say. *)
Record describes (ts : list Transition) (g : Group) : Prop := mkDescribes {
  d_visits : g_totalVisits g = visits_of (g_id g) ts;
  d_visited : 1 <= g_totalVisits g;
  d_duration : g_totalDuration g = durations_of (g_id g) ts;
  d_users_nodup : NoDup (g_uniqueUsers g);
  d_users : forall u, In u (g_uniqueUsers g) <-> visitor (g_id g) ts u;
  d_last_bound :
    forall t, In t ts -> toNodeId t = g_id g ->
              t_createdAt t <= g_lastActivity g;
  d_last_attained :
    exists t, In t ts /\ toNodeId t = g_id g /\
              t_createdAt t = g_lastActivity g
}.

(** What [$group] has built after reading [ts]. *)
Record grouped (ts : list Transition) (gs : list Group) : Prop := mkGrouped {
  gr_nodup : NoDup (map g_id gs);
  gr_describes : Forall (describes ts) gs;
  gr_ids : forall id, In id (map g_id gs) <-> In id (map toNodeId ts)
}.

(** ** 10. The browser client: [socket.js] state and the handlers of
    [main.js] and [ui.js] that drive it

    The state is the three module variables of [socket.js] and the target of
    the recommendation button; what a handler sends to the server is the
    list of events it returns.  Each [Date.now()] is a parameter. *)

Record Client := mkClient {
  currentUser_id : option ObjectId;
  currentRoomKey : option string;
  nodeEntryTime : option Date;
  recommendTarget : option string
}.

Inductive ClientEmit :=
| ToJoin (d : JoinData)
| ToSend (d : SendData)
| ToGetRecommendation (key : string).

(** [Math.round(ms / 1000)]: the nearest integer, halves upwards. *)
Definition round_seconds (ms : Z) : Z := (ms + 500) / 1000.

(** Truthiness of [nodeEntryTime]: set, and not 0. *)
Definition entry_time (c : Client) : option Date :=
  match nodeEntryTime c with
  | Some 0 => None
  | t => t
  end.

(** [goToNode] of [main.js] followed by [emitJoinNodeAndLogTransition] and
    [emitGetRecommendation] of [socket.js]; [now] is read for the duration,
    [now'] when the entry time is reset. *)
Definition goToNode (now now' : Date) (nodeKey : string)
           (transitionType : string) (c : Client)
  : Client * list ClientEmit :=
  match truthy (Some nodeKey), currentUser_id c with
  | Some key, Some uid =>
      let duration :=
        match entry_time c with
        | Some t => round_seconds (now - t)
        | None => 0
        end in
      ({| currentUser_id := currentUser_id c;
          currentRoomKey := Some key;
          nodeEntryTime := Some now';
          recommendTarget := recommendTarget c |},
       [ ToJoin {| jd_userId := Some uid;
                   jd_fromNodeKey := currentRoomKey c;
                   jd_toNodeKey := Some key;
                   jd_duration := Some duration;
                   jd_transitionType := Some transitionType |};
         ToGetRecommendation key ])
  | _, _ => (c, [])
  end.

(** [emitSendMessage] *)
Definition emitSendMessage (msg : string) (c : Client) : list ClientEmit :=
  match truthy (currentRoomKey c), currentUser_id c with
  | Some key, Some uid =>
      [ ToSend {| sd_userId := Some uid; sd_nodeKey := Some key;
                  sd_text := msg |} ]
  | _, _ => []
  end.

(** [handleLeaveChat] *)
Definition handleLeaveChat (c : Client) : Client :=
  {| currentUser_id := currentUser_id c;
     currentRoomKey := None;
     nodeEntryTime := None;
     recommendTarget := recommendTarget c |}.

(** [String.prototype.trim], on ASCII white space. *)
Fixpoint trimEnd (s : string) : string :=
  match s with
  | EmptyString => EmptyString
  | String c s' =>
      match trimEnd s' with
      | EmptyString => if is_white c then EmptyString else String c EmptyString
      | r => String c r
      end
  end.

Definition trim (s : string) : string := trimEnd (trimStart s).

(** [text.substring(n)] *)
Fixpoint substring_from (n : nat) (s : string) : string :=
  match n, s with
  | O, _ => s
  | S n', String _ s' => substring_from n' s'
  | S _, EmptyString => EmptyString
  end.

(** [handleMessageInput]: [value] is the content of the message box. *)
Definition handleMessageInput (now now' : Date) (value : string) (c : Client)
  : Client * list ClientEmit :=
  let text := trim value in
  if String.eqb text "" then (c, [])
  else if String.prefix "/go " text then
    let nodeKey := trim (substring_from 4 text) in
    if String.eqb nodeKey "" then (c, [])
    else goToNode now now' nodeKey "GO_COMMAND" c
  else (c, emitSendMessage text c).

(** The [sessionEstablished] listener with the callback [main.js]
    installs: [roomKeyInput] is the content of the room box. *)
Definition on_sessionEstablished (now now' : Date) (userId : ObjectId)
           (roomKeyInput : string) (c : Client) : Client * list ClientEmit :=
  goToNode now now' (trim roomKeyInput) "INITIAL"
    {| currentUser_id := Some userId;
       currentRoomKey := currentRoomKey c;
       nodeEntryTime := nodeEntryTime c;
       recommendTarget := recommendTarget c |}.

(** The [recommendationResult] listener and [setRecommendationButton]:
    the button is shown, aimed at the key, or hidden. *)
Definition on_recommendationResult (recommendedKey : option string)
           (c : Client) : Client :=
  {| currentUser_id := currentUser_id c;
     currentRoomKey := currentRoomKey c;
     nodeEntryTime := nodeEntryTime c;
     recommendTarget := truthy recommendedKey |}.

(** A click on the recommendation button. *)
Definition click_recommendation (now now' : Date) (c : Client)
  : Client * list ClientEmit :=
  match recommendTarget c with
  | Some key => goToNode now now' key "RECOMMENDATION" c
  | None => (c, [])
  end.

(** The server's side of what the client sends. *)
Definition deliver (now : Date) (rnd : nat) (e : ClientEmit) (s : Store)
  : Store * list Effect :=
  match e with
  | ToJoin d => joinNodeAndLogTransition now d s
  | ToSend d => sendMessage now d s
  | ToGetRecommendation key => (s, getRecommendation rnd key s)
  end.

Definition deliver_all (now : Date) (rnd : nat) (es : list ClientEmit)
           (s : Store) : Store :=
  fold_left (fun s e => fst (deliver now rnd e s)) es s.

(** The last character is not white space. *)
Fixpoint ends_inked (s : string) : bool :=
  match s with
  | EmptyString => false
  | String c EmptyString => negb (is_white c)
  | String _ s' => ends_inked s'
  end.

Definition is_chat (e : ClientEmit) : bool :=
  match e with
  | ToSend _ => true
  | _ => false
  end.

(** What the listeners of [socket.js] keep of a server event: only
    [recommendationResult] changes the state modelled here without reading
    the clock ([history] and [receiveMessage] write to the page). *)
Definition receive (e : Effect) (c : Client) : Client :=
  match e with
  | EmitRecommendationResult r => on_recommendationResult r c
  | _ => c
  end.

(** A User record that carries no attribution yet. *)
Definition no_attribution (u : User) : Prop :=
  utmSource u = None /\ utmMedium u = None /\ utmCampaign u = None /\
  utmContent u = None /\ utmTerm u = None.

(** * Properties *)

(** ** Collections *)

Section CollectionFacts.
Context {A : Type}.
Implicit Types (p q : A -> bool) (f : A -> A) (c : list A).

Lemma findOne_Some_holds p c d :
  findOne p c = Some d -> p d = true /\ In d c.
Proof.
  induction c as [|x c IH]; simpl; [discriminate|].
  destruct (p x) eqn:Hx.
  - intros [= <-]. auto.
  - intros H. destruct (IH H). auto.
Qed.

Lemma findOne_None_all p c :
  findOne p c = None -> forall x, In x c -> p x = false.
Proof.
  induction c as [|y c IH]; simpl; [contradiction|].
  destruct (p y) eqn:Hy; [discriminate|].
  intros H x [<-|Hin]; auto.
Qed.

Lemma findOne_app_fresh p c x :
  findOne p c = None -> p x = true -> findOne p (c ++ [x]) = Some x.
Proof.
  induction c as [|y c IH]; simpl; intros Hn Hx.
  - now rewrite Hx.
  - destruct (p y); [discriminate|auto].
Qed.

Lemma findOne_app_other p c x :
  p x = false -> findOne p (c ++ [x]) = findOne p c.
Proof.
  intros Hx. induction c as [|y c IH]; simpl.
  - now rewrite Hx.
  - now destruct (p y).
Qed.

Lemma updateFirst_length p f c :
  List.length (updateFirst p f c) = List.length c.
Proof.
  induction c as [|y c IH]; simpl; [reflexivity|].
  destruct (p y); simpl; congruence.
Qed.

Lemma updateFirst_id p c : updateFirst p (fun d => d) c = c.
Proof.
  induction c as [|y c IH]; simpl; [reflexivity|].
  destruct (p y); congruence.
Qed.

Lemma updateFirst_None p f c :
  findOne p c = None -> updateFirst p f c = c.
Proof.
  induction c as [|y c IH]; simpl; [reflexivity|].
  destruct (p y); [discriminate|]. intros H. now rewrite IH.
Qed.

(** After the update the filter finds the updated document, as long as
    the update keeps the document under the filter. *)
Lemma findOne_updateFirst_same p f c d :
  (forall x, p x = true -> p (f x) = true) ->
  findOne p c = Some d ->
  findOne p (updateFirst p f c) = Some (f d).
Proof.
  intros Hf. induction c as [|y c IH]; simpl; [discriminate|].
  destruct (p y) eqn:Hy; simpl.
  - intros [= <-]. now rewrite (Hf _ Hy).
  - rewrite Hy. exact IH.
Qed.

(** A filter that the update does not move, and that excludes whatever
    [p] selects, sees the collection as before. *)
Lemma findOne_updateFirst_other p q f c :
  (forall x, p x = true -> q x = false /\ q (f x) = false) ->
  findOne q (updateFirst p f c) = findOne q c.
Proof.
  intros Hpq. induction c as [|y c IH]; simpl; [reflexivity|].
  destruct (p y) eqn:Hy; simpl.
  - destruct (Hpq _ Hy) as [-> ->]. reflexivity.
  - now rewrite IH.
Qed.

Lemma updateFirst_map {B : Type} (g : A -> B) p f c :
  (forall x, g (f x) = g x) -> map g (updateFirst p f c) = map g c.
Proof.
  intros Hg. induction c as [|y c IH]; simpl; [reflexivity|].
  destruct (p y); simpl; congruence.
Qed.

Lemma findOneAndUpdate_result p f fresh c :
  (forall x, p x = true -> p (f x) = true) ->
  p fresh = true ->
  findOne p (snd (findOneAndUpdate p f fresh c))
  = Some (fst (findOneAndUpdate p f fresh c)).
Proof.
  intros Hf Hfresh. unfold findOneAndUpdate.
  destruct (findOne p c) as [d|] eqn:Hfind; simpl.
  - now apply findOne_updateFirst_same.
  - now apply findOne_app_fresh.
Qed.
End CollectionFacts.

(** ** [userSetup] *)

Lemma by_localId_set lid uf u :
  by_localId lid (user_set uf u) = by_localId lid u.
Proof. reflexivity. Qed.

Lemma by_localId_insert now id lid uf :
  by_localId lid (user_insert now id lid uf) = true.
Proof. unfold by_localId; simpl. apply String.eqb_refl. Qed.

Lemma userSetup_users now d s :
  users (fst (userSetup now d s))
  = snd (findOneAndUpdate (by_localId (us_localId d))
           (user_set (updateFields now d))
           (user_insert now (nextId s) (us_localId d) (updateFields now d))
           (users s)).
Proof.
  unfold userSetup.
  destruct (findOneAndUpdate _ _ _ _) as [u us]. reflexivity.
Qed.

Lemma userSetup_resolves now d s :
  findOne (by_localId (us_localId d)) (users (fst (userSetup now d s)))
  = Some (fst (findOneAndUpdate (by_localId (us_localId d))
           (user_set (updateFields now d))
           (user_insert now (nextId s) (us_localId d) (updateFields now d))
           (users s))).
Proof.
  rewrite userSetup_users. apply findOneAndUpdate_result.
  - intros x Hx. now rewrite by_localId_set.
  - apply by_localId_insert.
Qed.

Lemma userSetup_existing now d s u :
  findOne (by_localId (us_localId d)) (users s) = Some u ->
  users (fst (userSetup now d s))
  = updateFirst (by_localId (us_localId d))
                (user_set (updateFields now d)) (users s)
  /\ findOne (by_localId (us_localId d)) (users (fst (userSetup now d s)))
     = Some (user_set (updateFields now d) u).
Proof.
  intros Hu. rewrite userSetup_resolves, userSetup_users.
  unfold findOneAndUpdate. rewrite Hu. auto.
Qed.

Lemma userSetup_keeps_unique now d s :
  NoDup (map localId (users s)) ->
  NoDup (map localId (users (fst (userSetup now d s)))).
Proof.
  intros Hnd. rewrite userSetup_users. unfold findOneAndUpdate.
  destruct (findOne _ (users s)) as [u|] eqn:Hfind; simpl.
  - rewrite updateFirst_map by reflexivity. exact Hnd.
  - rewrite map_app. simpl.
    apply NoDup_app_remove_l with (l := []). simpl.
    apply Permutation_NoDup with (l := us_localId d :: map localId (users s)).
    + apply Permutation_cons_append.
    + constructor; [|exact Hnd].
      intros Hin. apply in_map_iff in Hin as (x & Hx & Hin).
      pose proof (findOne_None_all _ _ Hfind x Hin) as Hne.
      unfold by_localId in Hne. rewrite Hx, String.eqb_refl in Hne.
      discriminate.
Qed.

Lemma user_set_attribution now d u :
  attribution_lww d u (user_set (updateFields now d) u).
Proof.
  unfold attribution_lww, lww, supplied, updateFields; simpl.
  destruct (us_utm d) as [utm|]; simpl; [|tauto].
  repeat split;
    match goal with
    | |- context [truthy ?x] =>
        destruct x as [v|]; simpl; [destruct (String.eqb v "")|]; reflexivity
    end.
Qed.

Lemma user_insert_attribution now id lid d blank :
  no_attribution blank ->
  attribution_lww d blank (user_insert now id lid (updateFields now d)).
Proof.
  intros (H1 & H2 & H3 & H4 & H5).
  pose proof (user_set_attribution now d
                {| u_id := id; localId := lid;
                   nickname := ""; u_createdAt := now; lastSeenAt := now;
                   utmSource := None; utmMedium := None;
                   utmCampaign := None; utmContent := None;
                   utmTerm := None |}) as H.
  unfold attribution_lww in *.
  cbn [utmSource utmMedium utmCampaign utmContent utmTerm] in H.
  rewrite H1, H2, H3, H4, H5. exact H.
Qed.

(** C5. Calling [userSetup] twice with one [localId] keeps a single User
    record for it.  After the first call the record carries that call's
    nickname and clock reading; if the call created it, its [createdAt] is
    that reading too, it is appended to the collection and its attribution
    fields are exactly the non-empty values the call supplied; if it was
    there before, it keeps its [_id] and [createdAt] and each attribution
    field is overwritten by a supplied non-empty value and kept otherwise.
    The second call adds no document and the unique index on [localId]
    still holds; the record keeps its [_id], [localId] and [createdAt],
    carries the second call's nickname and [lastSeenAt], and each
    attribution field is again overwritten by a supplied non-empty value
    and kept otherwise -- so a field holds the second call's value, else
    the first call's, else what was stored before both. *)
Theorem userSetup_idempotent_identity :
  forall (now1 now2 : Date) (d1 d2 : UserSetupData) (s : Store),
    us_localId d2 = us_localId d1 ->
    NoDup (map localId (users s)) ->
    let s1 := fst (userSetup now1 d1 s) in
    let s2 := fst (userSetup now2 d2 s1) in
    exists u1 u2,
      findOne (by_localId (us_localId d1)) (users s1) = Some u1 /\
      findOne (by_localId (us_localId d1)) (users s2) = Some u2 /\
      List.length (users s2) = List.length (users s1) /\
      NoDup (map localId (users s2)) /\
      u_id u2 = u_id u1 /\
      nickname u2 = us_nickname d2 /\
      lastSeenAt u2 = now2 /\
      attribution_lww d2 u1 u2 /\
      localId u2 = us_localId d1 /\
      u_createdAt u2 = u_createdAt u1 /\
      localId u1 = us_localId d1 /\
      nickname u1 = us_nickname d1 /\
      lastSeenAt u1 = now1 /\
      match findOne (by_localId (us_localId d1)) (users s) with
      | Some u0 =>
          u_id u1 = u_id u0 /\ u_createdAt u1 = u_createdAt u0 /\
          attribution_lww d1 u0 u1 /\
          List.length (users s1) = List.length (users s)
      | None =>
          u_id u1 = nextId s /\ u_createdAt u1 = now1 /\
          (forall blank, no_attribution blank -> attribution_lww d1 blank u1) /\
          users s1 = users s ++ [u1]
      end.
Proof.
  intros now1 now2 d1 d2 s Hlid Hnd s1 s2.
  pose proof (userSetup_resolves now1 d1 s) as H1. fold s1 in H1.
  pose proof (userSetup_users now1 d1 s) as Hu1. fold s1 in Hu1.
  remember (fst (findOneAndUpdate _ _ _ (users s))) as u1 eqn:Eu1.
  rewrite <- Hlid in H1.
  destruct (userSetup_existing now2 d2 s1 u1 H1) as [Hus Hfind].
  fold s2 in Hus, Hfind. rewrite Hlid in H1, Hfind.
  assert (Hl1 : localId u1 = us_localId d1).
  { apply findOne_Some_holds in H1. destruct H1 as [Hp _].
    now apply String.eqb_eq in Hp. }
  exists u1, (user_set (updateFields now2 d2) u1).
  split; [exact H1|]. split; [exact Hfind|].
  split; [rewrite Hus; apply updateFirst_length|].
  split; [subst s2 s1; now do 2 apply userSetup_keeps_unique|].
  split; [reflexivity|]. split; [reflexivity|]. split; [reflexivity|].
  split; [apply user_set_attribution|].
  split; [exact Hl1|]. split; [reflexivity|]. split; [exact Hl1|].
  unfold findOneAndUpdate in Eu1, Hu1.
  destruct (findOne (by_localId (us_localId d1)) (users s)) as [u0|] eqn:H0;
    cbn [fst snd] in Eu1, Hu1; subst u1.
  - split; [reflexivity|]. split; [reflexivity|].
    split; [reflexivity|]. split; [reflexivity|].
    split; [apply user_set_attribution|].
    rewrite Hu1. apply updateFirst_length.
  - split; [reflexivity|]. split; [reflexivity|].
    split; [reflexivity|]. split; [reflexivity|].
    split; [intros blank Hb; now apply user_insert_attribution|].
    exact Hu1.
Qed.

(** C10. When the [localId] already names a User, [userSetup] leaves that
    record's [_id], [localId] and [createdAt] as they were; nickname and
    [lastSeenAt] take the call's values, attribution fields follow
    last-write-wins, no document is added, every other User and the three
    other collections are untouched. *)
Theorem userSetup_existing_frame :
  forall (now : Date) (d : UserSetupData) (s : Store) (u : User),
    findOne (by_localId (us_localId d)) (users s) = Some u ->
    let s' := fst (userSetup now d s) in
    exists u',
      findOne (by_localId (us_localId d)) (users s') = Some u' /\
      u_id u' = u_id u /\
      localId u' = localId u /\
      u_createdAt u' = u_createdAt u /\
      nickname u' = us_nickname d /\
      lastSeenAt u' = now /\
      attribution_lww d u u' /\
      List.length (users s') = List.length (users s) /\
      (forall lid, lid <> us_localId d ->
         findOne (by_localId lid) (users s') = findOne (by_localId lid) (users s)) /\
      nodes s' = nodes s /\ messages s' = messages s /\
      transitions s' = transitions s.
Proof.
  intros now d s u Hu s'.
  destruct (userSetup_existing now d s u Hu) as [Hus Hfind].
  fold s' in Hus, Hfind.
  exists (user_set (updateFields now d) u).
  repeat split; try assumption; try reflexivity;
    try apply user_set_attribution.
  - rewrite Hus. apply updateFirst_length.
  - intros lid Hne. rewrite Hus. apply findOne_updateFirst_other.
    intros x Hx. rewrite by_localId_set.
    unfold by_localId in *. apply String.eqb_eq in Hx.
    rewrite Hx. split; apply String.eqb_neq; congruence.
  - subst s'. unfold userSetup.
    destruct (findOneAndUpdate _ _ _ _). reflexivity.
  - subst s'. unfold userSetup.
    destruct (findOneAndUpdate _ _ _ _). reflexivity.
  - subst s'. unfold userSetup.
    destruct (findOneAndUpdate _ _ _ _). reflexivity.
Qed.

(** ** [joinNodeAndLogTransition] *)

Lemma findOne_app_Some {A : Type} (p : A -> bool) c l d :
  findOne p c = Some d -> findOne p (c ++ l) = Some d.
Proof.
  induction c as [|y c IH]; simpl; [discriminate|].
  destruct (p y); auto.
Qed.

Lemma by_roomKey_neq k k' n :
  k <> k' -> by_roomKey k' n = true -> by_roomKey k n = false.
Proof.
  unfold by_roomKey. intros Hne H. apply String.eqb_eq in H.
  apply String.eqb_neq. congruence.
Qed.

Lemma resolveFromNode_nodes now fk s :
  nodes (snd (resolveFromNode now fk s))
  = match findOne (by_roomKey fk) (nodes s) with
    | Some _ => nodes s
    | None => nodes s ++ [node_default now (nextId s) fk]
    end.
Proof.
  unfold resolveFromNode, findOneAndUpdate.
  destruct (findOne _ (nodes s)); simpl; [apply updateFirst_id|reflexivity].
Qed.

Lemma resolveToNode_nodes now tk uid s :
  nodes (snd (resolveToNode now tk uid s))
  = match findOne (by_roomKey tk) (nodes s) with
    | Some _ => updateFirst (by_roomKey tk) (node_visit now) (nodes s)
    | None =>
        nodes s ++
        [node_visit now (node_set_creator uid (node_default now (nextId s) tk))]
    end.
Proof.
  unfold resolveToNode, findOneAndUpdate.
  destruct (findOne _ (nodes s)); reflexivity.
Qed.

Lemma join_nodes now d s uid tk :
  jd_userId d = Some uid ->
  truthy (jd_toNodeKey d) = Some tk ->
  nodes (fst (joinNodeAndLogTransition now d s))
  = nodes (snd (resolveToNode now tk uid (after_source now d s))).
Proof.
  intros Hu Ht. unfold joinNodeAndLogTransition, after_source.
  rewrite Hu, Ht.
  destruct (truthy (jd_fromNodeKey d)) as [fk|].
  - destruct (resolveFromNode now fk s) as [fn s1]. simpl.
    destruct (resolveToNode now tk uid s1) as [tn s2]. simpl.
    destruct (formatHistory _ _); reflexivity.
  - destruct (resolveToNode now tk uid s) as [tn s2]. simpl.
    destruct (formatHistory _ _); reflexivity.
Qed.

(** Resolving a source key never rewrites a document that exists. *)
Lemma resolveFromNode_keeps now fk s k n :
  findOne (by_roomKey k) (nodes s) = Some n ->
  findOne (by_roomKey k) (nodes (snd (resolveFromNode now fk s))) = Some n.
Proof.
  intros Hk. rewrite resolveFromNode_nodes.
  destruct (findOne (by_roomKey fk) (nodes s)); [exact Hk|].
  now apply findOne_app_Some.
Qed.

Lemma resolveToNode_visits now tk uid s n :
  findOne (by_roomKey tk) (nodes s) = Some n ->
  findOne (by_roomKey tk) (nodes (snd (resolveToNode now tk uid s)))
  = Some (node_visit now n).
Proof.
  intros Hk. rewrite resolveToNode_nodes, Hk.
  apply findOne_updateFirst_same; auto.
Qed.

Lemma resolveToNode_keeps_others now tk uid s k :
  k <> tk ->
  findOne (by_roomKey k) (nodes (snd (resolveToNode now tk uid s)))
  = findOne (by_roomKey k) (nodes s).
Proof.
  intros Hne. rewrite resolveToNode_nodes.
  destruct (findOne (by_roomKey tk) (nodes s)).
  - apply findOne_updateFirst_other. intros x Hx.
    split; now apply by_roomKey_neq with (k' := tk).
  - apply findOne_app_other. apply by_roomKey_neq with (k' := tk); auto.
    unfold by_roomKey; simpl. apply String.eqb_refl.
Qed.

Lemma resolveToNode_creates now tk uid s :
  findOne (by_roomKey tk) (nodes s) = None ->
  findOne (by_roomKey tk) (nodes (snd (resolveToNode now tk uid s)))
  = Some (node_visit now (node_set_creator uid (node_default now (nextId s) tk))).
Proof.
  intros Hk. rewrite resolveToNode_nodes, Hk.
  apply findOne_app_fresh; auto.
  unfold by_roomKey; simpl. apply String.eqb_refl.
Qed.

(** C4. In a join that passes the guard, resolving the source key rewrites
    no existing room, and a source room it has to create starts with
    [visitCount = 0] and no creator; after the whole handler a room other than the
    destination is exactly as before, the destination has [visitCount] one
    higher and [lastActivityAt = now] with every other field as before, and
    a destination created by the join (it is not also the source) starts
    with [visitCount = 1] and [creatorId] the joining user. *)
Theorem join_counts_destination_only :
  forall (now : Date) (d : JoinData) (s : Store) (uid : ObjectId) (tk : string),
    jd_userId d = Some uid ->
    truthy (jd_toNodeKey d) = Some tk ->
    let s' := fst (joinNodeAndLogTransition now d s) in
    (forall k n, findOne (by_roomKey k) (nodes s) = Some n ->
       findOne (by_roomKey k) (nodes (after_source now d s)) = Some n) /\
    (forall fk, truthy (jd_fromNodeKey d) = Some fk ->
       findOne (by_roomKey fk) (nodes s) = None ->
       exists n', findOne (by_roomKey fk) (nodes (after_source now d s))
                  = Some n' /\
                  visitCount n' = 0 /\ creatorId n' = None) /\
    (forall k n, k <> tk -> findOne (by_roomKey k) (nodes s) = Some n ->
       findOne (by_roomKey k) (nodes s') = Some n) /\
    (forall n, findOne (by_roomKey tk) (nodes s) = Some n ->
       exists n', findOne (by_roomKey tk) (nodes s') = Some n' /\
                  visited now n n') /\
    (findOne (by_roomKey tk) (nodes s) = None ->
     truthy (jd_fromNodeKey d) <> Some tk ->
       exists n', findOne (by_roomKey tk) (nodes s') = Some n' /\
                  visitCount n' = 1 /\ creatorId n' = Some uid /\
                  lastActivityAt n' = now /\ n_createdAt n' = now /\
                  messageCount n' = 0 /\ roomKey n' = tk).
Proof.
  intros now d s uid tk Hu Ht s'.
  assert (Hsrc : forall k n, findOne (by_roomKey k) (nodes s) = Some n ->
            findOne (by_roomKey k) (nodes (after_source now d s)) = Some n).
  { intros k n Hk. unfold after_source.
    destruct (truthy (jd_fromNodeKey d)); [|exact Hk].
    now apply resolveFromNode_keeps. }
  subst s'. rewrite (join_nodes now d s uid tk Hu Ht).
  split; [exact Hsrc|]. split; [|split; [|split]].
  - intros fk Hfk Hnone. unfold after_source. rewrite Hfk.
    rewrite resolveFromNode_nodes, Hnone.
    eexists. split.
    + apply findOne_app_fresh; [exact Hnone|].
      unfold by_roomKey; simpl. apply String.eqb_refl.
    + split; reflexivity.
  - intros k n Hne Hk. rewrite resolveToNode_keeps_others by exact Hne. auto.
  - intros n Hk. exists (node_visit now n). split.
    + apply resolveToNode_visits. auto.
    + unfold visited; simpl. repeat split; reflexivity.
  - intros Hnone Hfrom.
    assert (Hnone' : findOne (by_roomKey tk) (nodes (after_source now d s)) = None).
    { unfold after_source.
      destruct (truthy (jd_fromNodeKey d)) as [fk|]; [|exact Hnone].
      rewrite resolveFromNode_nodes.
      destruct (findOne (by_roomKey fk) (nodes s)); [exact Hnone|].
      rewrite findOne_app_other; [exact Hnone|].
      unfold by_roomKey; simpl. apply String.eqb_neq. congruence. }
    eexists. split; [apply resolveToNode_creates; exact Hnone'|].
    simpl. repeat split; reflexivity.
Qed.

(** ** The stable sort *)

Lemma in_firstn {A : Type} (n : nat) (l : list A) x :
  In x (firstn n l) -> In x l.
Proof.
  intros H. rewrite <- (firstn_skipn n l). apply in_or_app. now left.
Qed.

Lemma in_skipn {A : Type} (n : nat) (l : list A) x :
  In x (skipn n l) -> In x l.
Proof.
  intros H. rewrite <- (firstn_skipn n l). apply in_or_app. now right.
Qed.

Section StableSortFacts.
Context {A : Type} (before : A -> A -> bool).
Hypothesis before_total : forall x y, before x y = true \/ before y x = true.
Hypothesis before_trans :
  forall x y z, before x y = true -> before y z = true -> before x z = true.

Let ord (x y : A) : Prop := before x y = true.
Let tie (x y : A) : bool := before x y && before y x.

Lemma insert_sorted_perm x l :
  Permutation (insert_sorted before x l) (x :: l).
Proof.
  induction l as [|y l IH]; simpl; [reflexivity|].
  destruct (before x y); [reflexivity|].
  rewrite IH. apply perm_swap.
Qed.

Lemma stable_sort_perm l : Permutation (stable_sort before l) l.
Proof.
  induction l as [|x l IH]; simpl; [reflexivity|].
  rewrite insert_sorted_perm. now constructor.
Qed.

Lemma stable_sort_length l :
  List.length (stable_sort before l) = List.length l.
Proof. apply Permutation_length, stable_sort_perm. Qed.

Lemma insert_sorted_sorted x l :
  StronglySorted ord l -> StronglySorted ord (insert_sorted before x l).
Proof.
  induction 1 as [|y l Hs IH Hy]; simpl.
  - repeat constructor.
  - destruct (before x y) eqn:Hxy.
    + constructor; [now constructor|].
      constructor; [exact Hxy|].
      eapply Forall_impl; [|exact Hy].
      intros z Hz. now apply before_trans with y.
    + constructor; [exact IH|].
      assert (Hyx : ord y x) by (destruct (before_total x y); congruence).
      eapply Permutation_Forall; [symmetry; apply insert_sorted_perm|].
      now constructor.
Qed.

Lemma stable_sort_sorted l : StronglySorted ord (stable_sort before l).
Proof.
  induction l as [|x l IH]; simpl; [constructor|].
  now apply insert_sorted_sorted.
Qed.

(** Stability: the entries tied with [x] keep their relative order. *)
Lemma insert_sorted_stable x a l :
  filter (tie x) (insert_sorted before a l) = filter (tie x) (a :: l).
Proof.
  induction l as [|y l IH]; [reflexivity|].
  cbn [insert_sorted]. destruct (before a y) eqn:Hay; [reflexivity|].
  cbn [filter] in *. rewrite IH.
  destruct (tie x a) eqn:Hxa; [|reflexivity].
  destruct (tie x y) eqn:Hxy; [|reflexivity].
  exfalso. unfold tie in *.
  apply andb_prop in Hxa as [_ Hax]. apply andb_prop in Hxy as [Hxy _].
  rewrite (before_trans a x y Hax Hxy) in Hay. discriminate.
Qed.

Lemma stable_sort_stable x l :
  filter (tie x) (stable_sort before l) = filter (tie x) l.
Proof.
  induction l as [|a l IH]; [reflexivity|].
  cbn [stable_sort]. rewrite insert_sorted_stable.
  cbn [filter]. now rewrite IH.
Qed.


(** A prefix of a sorted list is in front of everything it leaves out. *)
Lemma sorted_firstn_split n l :
  StronglySorted ord l ->
  StronglySorted ord (firstn n l) /\
  forall a b, In a (firstn n l) -> In b (skipn n l) -> ord a b.
Proof.
  intros Hs. revert n.
  induction Hs as [|x l Hs IH Hx]; intros n.
  - rewrite firstn_nil, skipn_nil. split; [constructor|contradiction].
  - destruct n as [|n]; simpl.
    + split; [constructor|contradiction].
    + destruct (IH n) as [IH1 IH2]. split.
      * constructor; [exact IH1|].
        apply Forall_forall. intros z Hz.
        rewrite Forall_forall in Hx. apply Hx.
        eapply in_firstn. exact Hz.
      * intros a b [<-|Ha] Hb.
        -- rewrite Forall_forall in Hx. apply Hx.
           eapply in_skipn. exact Hb.
        -- now apply IH2.
Qed.
End StableSortFacts.

Lemma StronglySorted_weaken {A : Type} (R1 R2 : A -> A -> Prop) l :
  (forall a b, R1 a b -> R2 a b) ->
  StronglySorted R1 l -> StronglySorted R2 l.
Proof.
  intros Himp. induction 1 as [|x l Hs IH Hx]; constructor; auto.
  eapply Forall_impl; [|exact Hx]. auto.
Qed.

(** ** Message history *)




(** ** [getRecommendation] *)

Lemma sample1_nil {A : Type} rnd : @sample1 A rnd [] = [].
Proof. unfold sample1. now destruct (rnd mod _)%nat. Qed.

Lemma sample1_In {A : Type} rnd (l : list A) x :
  In x (sample1 rnd l) -> In x l.
Proof.
  unfold sample1. destruct (nth_error l _) eqn:Hn; [|contradiction].
  intros [<-|[]]. eapply nth_error_In. exact Hn.
Qed.

Lemma sample1_nonempty {A : Type} rnd (l : list A) :
  l <> [] -> exists x, sample1 rnd l = [x].
Proof.
  intros Hne. unfold sample1.
  destruct (nth_error l _) eqn:Hn; [eauto|].
  apply nth_error_None in Hn.
  assert (List.length l <> 0%nat) by (destruct l; simpl; congruence).
  pose proof (Nat.mod_upper_bound rnd (List.length l) H). lia.
Qed.

Lemma recommendation_differs rnd key s n :
  In n (recommendation rnd key s) -> In n (nodes s) /\ roomKey n <> key.
Proof.
  unfold recommendation. intros H. apply sample1_In in H.
  apply filter_In in H as [Hin Hne]. split; [exact Hin|].
  apply negb_true_iff in Hne. now apply String.eqb_neq.
Qed.

(** The handler of the current server meets the recommendation contract:
    it always answers, never with the requested key, and the answer is
    [null] exactly when no other room exists. *)
Lemma getRecommendation_contract rnd key s :
  exists r, getRecommendation rnd key s = [EmitRecommendationResult r] /\
    r <> Some key /\
    (r = None <-> forall n, In n (nodes s) -> roomKey n = key).
Proof.
  unfold getRecommendation.
  destruct (recommendation rnd key s) as [|n l] eqn:Hrec.
  - exists None. repeat split; try discriminate.
    intros _ n Hin. destruct (String.eqb (roomKey n) key) eqn:He.
    + now apply String.eqb_eq.
    + exfalso. unfold recommendation in Hrec.
      destruct (sample1_nonempty rnd
        (filter (fun n => negb (String.eqb (roomKey n) key)) (nodes s)))
        as [x Hx]; [|congruence].
      intros Hnil.
      assert (Hf : In n (filter (fun n => negb (String.eqb (roomKey n) key))
                                (nodes s)))
        by (apply filter_In; split; [exact Hin|now rewrite He]).
      rewrite Hnil in Hf. contradiction.
  - exists (Some (roomKey n)).
    destruct (recommendation_differs rnd key s n) as [Hin Hne];
      [rewrite Hrec; now left|].
    repeat split; try congruence.
    intros Hall. elim Hne. now apply Hall.
Qed.

(** The earlier server file stays silent whenever no other room exists. *)
Lemma getRecommendation_v1_silent rnd key s :
  (forall n, In n (nodes s) -> roomKey n = key) ->
  ServerV1.getRecommendation rnd key s = [].
Proof.
  intros Hall. unfold ServerV1.getRecommendation.
  destruct (recommendation rnd key s) as [|n l] eqn:Hrec; [reflexivity|].
  destruct (recommendation_differs rnd key s n) as [Hin Hne];
    [rewrite Hrec; now left|].
  elim Hne. now apply Hall.
Qed.

(** Neither server file ever recommends the requested key. *)
Lemma getRecommendation_v1_never_self rnd key s :
  ~ In (EmitRecommendationResult (Some key))
       (ServerV1.getRecommendation rnd key s).
Proof.
  unfold ServerV1.getRecommendation.
  destruct (recommendation rnd key s) as [|n l] eqn:Hrec; [intros []|].
  destruct (recommendation_differs rnd key s n) as [_ Hne];
    [rewrite Hrec; now left|].
  intros [H|[]]. congruence.
Qed.

(** C6. The earlier server file answers nothing at all when the requested
    room is the only room: no [recommendationResult] is emitted, whatever
    the random draw, while the current server emits [recommendedKey: null]
    on the same input. *)
Theorem getRecommendation_v1_no_reply :
  forall rnd : nat,
    ServerV1.getRecommendation rnd "A" only_room_A = [] /\
    getRecommendation rnd "A" only_room_A = [EmitRecommendationResult None].
Proof.
  intros rnd.
  unfold ServerV1.getRecommendation, getRecommendation, recommendation.
  simpl. rewrite sample1_nil. auto.
Qed.

(** ** [sendMessage] *)

(** A sender id that no [userSetup] ever produced is accepted: the message
    is stored in room "A" although the [users] collection is empty. *)
Lemma sendMessage_unknown_sender :
  exists m,
    messages (fst (sendMessage 3000 ghost_send room_A_no_users)) = [m] /\
    m_userId m = 7%nat /\
    users room_A_no_users = [] /\
    ~ references_ok room_A_no_users m.
Proof.
  eexists. split; [reflexivity|]. split; [reflexivity|].
  split; [reflexivity|].
  intros [_ [u [Hin _]]]. exact Hin.
Qed.

Lemma updateFirst_message_keys now p (ns : list Node) :
  map roomKey (updateFirst p (node_message now) ns) = map roomKey ns /\
  map n_id (updateFirst p (node_message now) ns) = map n_id ns.
Proof. split; apply updateFirst_map; reflexivity. Qed.

(** C7 (as the code has it). [sendMessage] never adds or renames a room and
    never touches the [users] collection; it stores at most one message, and
    a stored message carries the [_id] of the room that already exists under
    the given key and the sender id of the payload, which must be present
    but is not looked up before the message is stored. *)
Theorem sendMessage_references :
  forall (now : Date) (d : SendData) (s : Store),
    let s' := fst (sendMessage now d s) in
    map roomKey (nodes s') = map roomKey (nodes s) /\
    map n_id (nodes s') = map n_id (nodes s) /\
    users s' = users s /\
    (messages s' = messages s \/
     exists m n k,
       messages s' = messages s ++ [m] /\
       sd_nodeKey d = Some k /\
       findOne (by_roomKey k) (nodes s) = Some n /\
       In n (nodes s) /\
       nodeId m = n_id n /\
       sd_userId d = Some (m_userId m) /\
       text m = sd_text d /\ m_createdAt m = now).
Proof.
  intros now d s. unfold sendMessage.
  destruct (sd_userId d) as [uid|]; [|simpl; auto].
  destruct (sd_nodeKey d) as [k|]; [|simpl; auto].
  destruct (findOne (by_roomKey k) (nodes s)) as [n|] eqn:Hn; [|simpl; auto].
  match goal with
  | |- context [match ?x with Some _ => _ | None => _ end] => destruct x
  end; simpl;
    (split; [apply updateFirst_message_keys|];
     split; [apply updateFirst_message_keys|];
     split; [reflexivity|]; right;
     eexists; exists n, k; repeat split;
     first [ exact Hn
           | exact (proj2 (findOne_Some_holds _ _ _ Hn))
           | reflexivity ]).
Qed.

(** ** Rejected events *)

(** The guard of [joinNodeAndLogTransition] returns before any console
    call: the rejected join leaves no log line. *)
Lemma rejected_join_not_logged :
  ~ dropped_with_log room_A_no_users
      (joinNodeAndLogTransition 2000 join_without_user room_A_no_users).
Proof. intros (_ & _ & Hlog). apply Hlog. reflexivity. Qed.

(** C8 (as the code has it). A join without [userId] or without [toNodeKey],
    and a message without [userId] or for a key that names no room, return
    the store as it was and perform no effect at all: no reply, no room
    change, and no console output either. *)
Theorem rejected_events_have_no_effect :
  forall (now : Date) (s : Store),
    (forall d, jd_userId d = None \/ truthy (jd_toNodeKey d) = None ->
       joinNodeAndLogTransition now d s = (s, [])) /\
    (forall d,
       sd_userId d = None \/
       (forall k, sd_nodeKey d = Some k ->
                  findOne (by_roomKey k) (nodes s) = None) ->
       sendMessage now d s = (s, [])).
Proof.
  intros now s. split.
  - intros d [H|H]; unfold joinNodeAndLogTransition; rewrite H;
      [reflexivity | now destruct (jd_userId d)].
  - intros d [H|H]; unfold sendMessage.
    + rewrite H. reflexivity.
    + destruct (sd_nodeKey d) as [k|].
      * rewrite (H k eq_refl). now destruct (sd_userId d).
      * now destruct (sd_userId d).
Qed.

(** ** Query parameters *)




















(** ** Hot-node ranking *)

Lemma slice0_firstn {A : Type} (e : Z) (l : list A) :
  0 <= e -> slice0 e l = firstn (Z.to_nat e) l.
Proof.
  intros He. unfold slice0.
  destruct (e <? 0) eqn:Hneg; [apply Z.ltb_lt in Hneg; lia|].
  destruct (Z.le_ge_cases e (Z.of_nat (List.length l))) as [Hle|Hge].
  - now rewrite Z.min_l.
  - rewrite Z.min_r, Nat2Z.id by lia.
    rewrite firstn_all. symmetry. apply firstn_all2. lia.
Qed.

Lemma slice0_length {A : Type} (e : Z) (l : list A) :
  Z.of_nat (List.length (slice0 e l))
  = if e <? 0 then Z.max (Z.of_nat (List.length l) + e) 0
    else Z.min e (Z.of_nat (List.length l)).
Proof.
  unfold slice0. rewrite length_firstn.
  destruct (e <? 0) eqn:Hneg; [apply Z.ltb_lt in Hneg|apply Z.ltb_ge in Hneg];
    lia.
Qed.

Lemma slice0_In {A : Type} (e : Z) (l : list A) x :
  In x (slice0 e l) -> In x l.
Proof. unfold slice0. apply in_firstn. Qed.

Lemma score_desc_spec a b :
  score_desc a b = true <-> (score b <= score a)%R.
Proof.
  unfold score_desc. destruct (Rlt_dec 0 (score b - score a)); split;
    intros; try discriminate; try reflexivity; lra.
Qed.

Lemma score_desc_total a b :
  score_desc a b = true \/ score_desc b a = true.
Proof. rewrite !score_desc_spec. lra. Qed.

Lemma score_desc_trans a b c :
  score_desc a b = true -> score_desc b c = true -> score_desc a c = true.
Proof. rewrite !score_desc_spec. lra. Qed.

Lemma same_score_spec a b : same_score a b = true <-> score a = score b.
Proof.
  unfold same_score. rewrite andb_true_iff, !score_desc_spec. lra.
Qed.

Lemma score_is_spec now h : score (scoreNode now h) = spec_score now h.
Proof.
  unfold scoreNode, spec_score, hoursSince.
  cbn [score].
  unfold VISIT_WEIGHT, USER_WEIGHT, DURATION_WEIGHT, RECENCY_WEIGHT,
    CREATION_RECENCY_WEIGHT, maxVisits, maxUsers, maxDuration, MS_PER_HOUR.
  reflexivity.
Qed.

Lemma rankHotRooms_In now hours limit minVisits s e :
  In e (rankHotRooms now hours limit minVisits s) ->
  exists h, In h (aggregatedData now hours minVisits s) /\
            e = scoreNode now h.
Proof.
  unfold rankHotRooms. intros H. apply slice0_In in H.
  apply (Permutation_in _ (stable_sort_perm score_desc _)) in H.
  apply in_map_iff in H as (h & <- & Hin). eauto.
Qed.

Lemma saturated_score now key :
  score (scoreNode now (saturated now key)) = 3.3%R.
Proof.
  rewrite score_is_spec. unfold spec_score, hoursSince, saturated.
  cbn [totalVisits uniqueUsersCount avgDurationPerVisit lastActivity createdAt].
  rewrite Z.sub_diag.
  replace (INR 20) with 20%R by (rewrite INR_IZR_INZ; reflexivity).
  replace (Q2R 300) with 300%R by (unfold Q2R; simpl; lra).
  replace (- (0 / 3600000) / 12)%R with 0%R by lra.
  replace (- (0 / 3600000) / 24)%R with 0%R by lra.
  rewrite exp_0.
  replace (100 / 100)%R with 1%R by lra.
  replace (20 / 20)%R with 1%R by lra.
  replace (300 / 300)%R with 1%R by lra.
  rewrite Rmin_left by lra. lra.
Qed.

(** C1. The score the route attaches to a room is the weighted sum of the
    specification: every entry returned by [rankHotRooms] is a group that
    passed the window and [minVisits] filters, paired with that sum; with a
    limit that does not cut the list every such group is returned with it;
    the saturated room scores 3.3; and the ranking is a function of [now],
    the three parameters and the [transitions] and [nodes] collections
    only. *)
Theorem hot_score_formula :
  forall now : Date,
    (forall h, score (scoreNode now h) = spec_score now h) /\
    (forall hours limit minVisits s,
       Forall (fun e =>
                 In (sn_node e) (aggregatedData now hours minVisits s) /\
                 score e = spec_score now (sn_node e))
              (rankHotRooms now hours limit minVisits s)) /\
    (forall hours limit minVisits s h,
       Z.of_nat (List.length (aggregatedData now hours minVisits s)) <= limit ->
       In h (aggregatedData now hours minVisits s) ->
       In {| sn_node := h; score := spec_score now h |}
          (rankHotRooms now hours limit minVisits s)) /\
    (forall key, score (scoreNode now (saturated now key)) = 3.3%R) /\
    (forall hours limit minVisits s s',
       transitions s = transitions s' -> nodes s = nodes s' ->
       rankHotRooms now hours limit minVisits s
       = rankHotRooms now hours limit minVisits s').
Proof.
  intros now. split; [apply score_is_spec|]. split; [|split; [|split]].
  - intros hours limit minVisits s. apply Forall_forall. intros e He.
    apply rankHotRooms_In in He as (h & Hin & ->).
    split; [exact Hin|apply score_is_spec].
  - intros hours limit minVisits s h Hlen Hin.
    unfold rankHotRooms. rewrite slice0_firstn by lia.
    rewrite firstn_all2
      by (rewrite stable_sort_length, length_map; lia).
    apply (Permutation_in _ (Permutation_sym (stable_sort_perm score_desc _))).
    apply in_map_iff. exists h. split; [|exact Hin].
    rewrite <- score_is_spec. reflexivity.
  - apply saturated_score.
  - intros hours limit minVisits s s' Ht Hn.
    unfold rankHotRooms, aggregatedData. now rewrite Ht, Hn.
Qed.

Lemma slice0_negative {A : Type} (e : Z) (l : list A) :
  e < 0 ->
  slice0 e l = firstn (List.length l - Z.to_nat (- e)) l.
Proof.
  intros He. unfold slice0.
  destruct (e <? 0) eqn:Hneg; [|apply Z.ltb_ge in Hneg; lia].
  f_equal. lia.
Qed.

(** C2. [GET /hot-nodes?limit=-1] over seven ranked rooms is answered with
    six entries: [parseInt] reads the limit as [-1], nothing replaces it,
    and [slice(0, -1)] drops only the last of the seven sorted entries.
    The answer is longer than any limit the query can stand for (the [-1]
    it gives, or the default 5), so it is not the top [limit]. *)
Theorem hot_nodes_limit_minus_one :
  let scored :=
    map (scoreNode 5000) (aggregatedData 5000 24 1 seven_rooms) in
  let answer := hot_nodes 5000 query_limit_minus_one seven_rooms in
  param_limit query_limit_minus_one = -1 /\
  List.length scored = 7%nat /\
  answer = firstn 6 (stable_sort score_desc scored) /\
  List.length answer = 6%nat /\
  param_limit query_limit_minus_one < 5 < Z.of_nat (List.length answer).
Proof.
  intros scored answer.
  assert (Hp : param_limit query_limit_minus_one = -1) by reflexivity.
  assert (Hh : param_hours query_limit_minus_one = 24) by reflexivity.
  assert (Hm : param_minVisits query_limit_minus_one = 1) by reflexivity.
  assert (Hn : List.length scored = 7%nat).
  { subst scored. rewrite length_map. vm_compute. reflexivity. }
  assert (Ha : answer = firstn 6 (stable_sort score_desc scored)).
  { subst answer. unfold hot_nodes, rankHotRooms.
    rewrite Hp, Hh, Hm. fold scored.
    rewrite slice0_negative by lia.
    rewrite stable_sort_length, Hn. reflexivity. }
  assert (Hl : List.length answer = 6%nat).
  { rewrite Ha, length_firstn, stable_sort_length, Hn. reflexivity. }
  split; [exact Hp|]. split; [exact Hn|]. split; [exact Ha|].
  split; [exact Hl|]. rewrite Hp, Hl. lia.
Qed.

(** Ranking on the exact values of the formula.  For a limit that is not
    negative the route returns the first [limit] entries of the scored groups sorted by
    descending score, entries of equal score keeping the order of the
    grouping: at most [limit] entries, and exactly [min limit n] of the [n]
    groups. *)
Theorem rankHotRooms_sorted_top :
  forall (now : Date) (hours limit minVisits : Z) (s : Store),
    0 <= limit ->
    let scored := map (scoreNode now) (aggregatedData now hours minVisits s) in
    let r := rankHotRooms now hours limit minVisits s in
    exists sorted,
      Permutation sorted scored /\
      StronglySorted higher_or_same sorted /\
      (forall x, filter (same_score x) sorted = filter (same_score x) scored) /\
      r = firstn (Z.to_nat limit) sorted /\
      StronglySorted higher_or_same r /\
      (forall a b, In a r -> In b (skipn (Z.to_nat limit) sorted) ->
                   higher_or_same a b) /\
      Z.of_nat (List.length r) <= limit /\
      List.length r = Nat.min (Z.to_nat limit) (List.length scored).
Proof.
  intros now hours limit minVisits s Hlimit scored r.
  exists (stable_sort score_desc scored).
  pose proof (stable_sort_sorted score_desc score_desc_total
                score_desc_trans scored) as Hsorted.
  destruct (sorted_firstn_split score_desc (Z.to_nat limit) _ Hsorted)
    as [Hpre Hcut].
  assert (Himp : forall a b, score_desc a b = true -> higher_or_same a b)
    by (intros a b; apply score_desc_spec).
  assert (Hr : r = firstn (Z.to_nat limit) (stable_sort score_desc scored))
    by (subst r; unfold rankHotRooms; now apply slice0_firstn).
  split; [apply stable_sort_perm|].
  split; [exact (StronglySorted_weaken _ _ _ Himp Hsorted)|].
  split; [intros x; apply (stable_sort_stable score_desc score_desc_trans)|].
  split; [exact Hr|]. rewrite Hr.
  split; [exact (StronglySorted_weaken _ _ _ Himp Hpre)|].
  split; [intros a b Ha Hb; now apply Himp, Hcut|].
  split.
  - pose proof (firstn_le_length (Z.to_nat limit)
                  (stable_sort score_desc scored)). lia.
  - now rewrite length_firstn, stable_sort_length.
Qed.

(** ** Instances on sample data *)

Lemma userSetup_twice_instance :
  us_localId second_setup = us_localId first_setup /\
  NoDup (map localId (users empty_store)) /\
  exists u,
    findOne (by_localId "tok-1")
      (users (fst (userSetup 20 second_setup
                     (fst (userSetup 10 first_setup empty_store))))) = Some u /\
    nickname u = "Calm Lion" /\ lastSeenAt u = 20 /\ u_createdAt u = 10 /\
    utmSource u = Some "ad" /\ utmMedium u = Some "mail".
Proof.
  split; [reflexivity|]. split; [constructor|].
  destruct (userSetup_idempotent_identity 10 20 first_setup second_setup
              empty_store eq_refl (NoDup_nil _))
    as (u1 & u2 & _ & H2 & _ & _ & _ & Hn & Hl & Ha2 & _ & Hc & _ & _ & _ & Hfirst).
  cbn in Hfirst. destruct Hfirst as (_ & Hc1 & Ha1 & _).
  destruct (Ha1 {| u_id := 0%nat; localId := ""; nickname := "";
                   u_createdAt := 0; lastSeenAt := 0;
                   utmSource := None; utmMedium := None;
                   utmCampaign := None; utmContent := None;
                   utmTerm := None |})
    as (Hs1 & _); [repeat split|].
  destruct Ha2 as (Hs2 & Hm2 & _).
  cbn in Hs1, Hs2, Hm2.
  exists u2. split; [exact H2|]. split; [exact Hn|]. split; [exact Hl|].
  split; [congruence|]. split; [congruence|exact Hm2].
Defined.

Lemma userSetup_existing_instance :
  exists u u',
    findOne (by_localId (us_localId second_setup))
      (users (fst (userSetup 10 first_setup empty_store))) = Some u /\
    findOne (by_localId (us_localId second_setup))
      (users (fst (userSetup 20 second_setup
                     (fst (userSetup 10 first_setup empty_store))))) = Some u' /\
    u_createdAt u' = u_createdAt u /\ localId u' = localId u.
Proof.
  eexists.
  destruct (userSetup_existing_frame 20 second_setup
              (fst (userSetup 10 first_setup empty_store)) _ eq_refl)
    as (u' & Hf & _ & Hl & Hc & _).
  exists u'. repeat split; [exact Hf|exact Hc|exact Hl].
Defined.

Lemma join_A_to_B_instance :
  jd_userId join_A_to_B = Some 7%nat /\
  truthy (jd_toNodeKey join_A_to_B) = Some "B" /\
  findOne (by_roomKey "A")
    (nodes (fst (joinNodeAndLogTransition 2000 join_A_to_B room_A_no_users)))
  = findOne (by_roomKey "A") (nodes room_A_no_users).
Proof.
  split; [reflexivity|]. split; [reflexivity|].
  destruct (join_counts_destination_only 2000 join_A_to_B room_A_no_users
              7%nat "B" eq_refl eq_refl) as (_ & _ & Hother & _).
  apply (Hother "A"); [discriminate|reflexivity].
Defined.


(** Of sixty messages, the history is messages 1 to 50. *)
Lemma fetchHistory_sixty_oldest :
  fetchHistory 0%nat HISTORY_LIMIT sixty_messages = map message_nr (seq 1 50).
Proof. vm_compute. reflexivity. Qed.

Lemma rejected_join_instance :
  jd_userId join_without_user = None /\
  joinNodeAndLogTransition 2000 join_without_user room_A_no_users
  = (room_A_no_users, []).
Proof.
  split; [reflexivity|].
  apply (proj1 (rejected_events_have_no_effect 2000 room_A_no_users)).
  left. reflexivity.
Defined.


Lemma saturated_score_instance :
  score (scoreNode 5000 (saturated 5000 "A")) = 3.3%R.
Proof.
  exact (proj1 (proj2 (proj2 (proj2 (hot_score_formula 5000)))) "A").
Defined.

Lemma rank_limit_one_instance :
  0 <= 1 /\
  List.length (rankHotRooms 5000 24 1 1 two_rooms) = 1%nat.
Proof.
  assert (H01 : 0 <= 1) by lia.
  split; [exact H01|].
  destruct (rankHotRooms_sorted_top 5000 24 1 1 two_rooms H01)
    as (sorted & _ & _ & _ & _ & _ & _ & _ & Hlen).
  rewrite Hlen. reflexivity.
Defined.

(** Binary64 rounding does not move the saturated score: the sum is the
    double nearest to 3.3. *)
Module Binary64Facts.
Import PrimFloat.
#[local] Set Warnings "-inexact-float".

Lemma saturated_score_binary64 :
  Binary64.saturated_sum 1%float = 3.3%float.
Proof. reflexivity. Qed.
End Binary64Facts.

(** ** The saturated room, end to end *)

(** Any group with all three counters at or above their caps, last visited
    and created at [now], scores 3.3. *)
Lemma saturated_spec_score now h :
  100 <= totalVisits h ->
  (20 <= uniqueUsersCount h)%nat ->
  (300 <= Q2R (avgDurationPerVisit h))%R ->
  lastActivity h = now -> createdAt h = now ->
  spec_score now h = 3.3%R.
Proof.
  intros Hv Hu Hd Hl Hc. unfold spec_score, hoursSince.
  rewrite Hl, Hc, Z.sub_diag.
  apply IZR_le in Hv. apply le_INR in Hu.
  replace (INR 20) with 20%R in Hu by (rewrite INR_IZR_INZ; reflexivity).
  replace (- (0 / 3600000) / 12)%R with 0%R by lra.
  replace (- (0 / 3600000) / 24)%R with 0%R by lra.
  rewrite exp_0.
  rewrite !Rmin_right by lra. lra.
Qed.

(** One hundred joins into room "A" at time 1000 by twenty users, each
    reporting 300 seconds: the route at time 1000 ranks that single room
    with score 3.3. *)
Lemma hot_nodes_busy_room :
  exists e,
    hot_nodes 1000 {| q_hours := None; q_limit := None; q_minVisits := None |}
              busy_store = [e] /\
    hn_roomKey (sn_node e) = "A" /\
    totalVisits (sn_node e) = 100 /\
    uniqueUsersCount (sn_node e) = 20%nat /\
    score e = 3.3%R.
Proof.
  assert (Hagg : exists h,
             aggregatedData 1000 24 1 busy_store = [h] /\
             hn_roomKey h = "A" /\ totalVisits h = 100 /\
             uniqueUsersCount h = 20%nat /\
             avgDurationPerVisit h = (30000 # 100)%Q /\
             lastActivity h = 1000 /\ createdAt h = 1000).
  { eexists. split; [vm_compute; reflexivity|]. repeat split. }
  destruct Hagg as (h & Hagg & Hk & Hv & Hu & Hd & Hl & Hc).
  exists (scoreNode 1000 h). split.
  - unfold hot_nodes, rankHotRooms.
    change (param_hours _) with 24. change (param_limit _) with 5.
    change (param_minVisits _) with 1.
    rewrite Hagg. reflexivity.
  - repeat split; try assumption.
    rewrite score_is_spec. apply saturated_spec_score; try assumption.
    + lia.
    + lia.
    + rewrite Hd. unfold Q2R. simpl. lra.
Qed.

(** * Further properties of the handlers, the ranking and the client *)

(** ** Store invariants *)

Lemma NoDup_snoc {A : Type} (l : list A) (x : A) :
  NoDup l -> ~ In x l -> NoDup (l ++ [x]).
Proof.
  intros Hl Hx.
  apply Permutation_NoDup with (l := x :: l).
  - apply Permutation_cons_append.
  - now constructor.
Qed.

Lemma Forall_updateFirst {A : Type} (Q : A -> Prop) p f (c : list A) :
  (forall x, Q x -> Q (f x)) -> Forall Q c -> Forall Q (updateFirst p f c).
Proof.
  intros Hf. induction 1 as [|x c Hx Hc IH]; simpl; [constructor|].
  destruct (p x); constructor; auto.
Qed.

Lemma Forall_snoc {A : Type} (Q : A -> Prop) (l : list A) x :
  Forall Q l -> Q x -> Forall Q (l ++ [x]).
Proof. intros Hl Hx. apply Forall_app. split; [exact Hl|now constructor]. Qed.

Lemma below_not_in (l : list nat) (next : nat) :
  Forall (fun i => (i < next)%nat) l -> ~ In next l.
Proof.
  intros H Hin. rewrite Forall_forall in H. specialize (H _ Hin). lia.
Qed.

Lemma findOne_None_key k ns :
  findOne (by_roomKey k) ns = None -> ~ In k (map roomKey ns).
Proof.
  intros Hn Hin. apply in_map_iff in Hin as (x & Hx & Hin).
  pose proof (findOne_None_all _ _ Hn x Hin) as Hf.
  unfold by_roomKey in Hf. rewrite Hx, String.eqb_refl in Hf. discriminate.
Qed.

(** The shape of every upsert on [roomKey]. *)
Lemma upsert_shape k f fresh (ns : list Node) :
  snd (findOneAndUpdate (by_roomKey k) f fresh ns)
  = match findOne (by_roomKey k) ns with
    | Some _ => updateFirst (by_roomKey k) f ns
    | None => ns ++ [fresh]
    end.
Proof. unfold findOneAndUpdate. now destruct (findOne _ ns). Qed.

Section Upsert.
Variables (s : Store) (k : string) (f : Node -> Node) (fresh : Node).
Hypothesis Hok : store_ok s.
Hypothesis Hk : k <> "".
Hypothesis Hf_id : forall x, n_id (f x) = n_id x.
Hypothesis Hf_key : forall x, roomKey (f x) = roomKey x.
Hypothesis Hfresh_id : n_id fresh = nextId s.
Hypothesis Hfresh_key : roomKey fresh = k.

Let s' := with_nodes s (snd (findOneAndUpdate (by_roomKey k) f fresh (nodes s))).

Lemma upsert_ids_grow : incl (node_ids s) (node_ids s').
Proof.
  subst s'. unfold node_ids. cbn [nodes with_nodes]. rewrite upsert_shape.
  destruct (findOne _ (nodes s)).
  - rewrite updateFirst_map by exact Hf_id. apply incl_refl.
  - rewrite map_app. apply incl_appl, incl_refl.
Qed.

Lemma store_ok_upsert : store_ok s'.
Proof.
  pose proof upsert_ids_grow as Hgrow.
  destruct Hok as [Hkeys Hids Hlids Huids Hne Hnb Hub Htt Htf Hmr].
  assert (Hnodes : nodes s'
            = match findOne (by_roomKey k) (nodes s) with
              | Some _ => updateFirst (by_roomKey k) f (nodes s)
              | None => nodes s ++ [fresh]
              end) by apply upsert_shape.
  constructor; cbn [users messages transitions nextId with_nodes s'] in *;
    fold s' in Hnodes |- *.
  - rewrite Hnodes. destruct (findOne _ (nodes s)) eqn:Hfind.
    + now rewrite updateFirst_map.
    + rewrite map_app; cbn [map]. rewrite Hfresh_key.
      apply NoDup_snoc; [exact Hkeys|now apply findOne_None_key].
  - unfold node_ids in *. rewrite Hnodes.
    destruct (findOne _ (nodes s)) eqn:Hfind.
    + now rewrite updateFirst_map.
    + rewrite map_app; cbn [map]. rewrite Hfresh_id.
      apply NoDup_snoc; [exact Hids|].
      apply below_not_in. now rewrite Forall_map.
  - exact Hlids.
  - exact Huids.
  - rewrite Hnodes. destruct (findOne _ (nodes s)).
    + apply Forall_updateFirst; [|exact Hne]. intros x. now rewrite Hf_key.
    + apply Forall_snoc; [exact Hne|]. now rewrite Hfresh_key.
  - rewrite Hnodes. destruct (findOne _ (nodes s)).
    + apply Forall_updateFirst.
      * intros x Hx. rewrite Hf_id. exact Hx.
      * eapply Forall_impl; [|exact Hnb]. simpl. intros; lia.
    + apply Forall_snoc.
      * eapply Forall_impl; [|exact Hnb]. simpl. intros; lia.
      * rewrite Hfresh_id. lia.
  - eapply Forall_impl; [|exact Hub]. simpl. intros; lia.
  - eapply Forall_impl; [|exact Htt]. intros t Ht. now apply Hgrow.
  - eapply Forall_impl; [|exact Htf]. intros t Ht i Hi. apply Hgrow. auto.
  - eapply Forall_impl; [|exact Hmr]. intros m Hm. now apply Hgrow.
Qed.
End Upsert.

Lemma truthy_nonempty v k : truthy v = Some k -> k <> "".
Proof.
  unfold truthy. destruct v as [x|]; [|discriminate].
  destruct (String.eqb x "") eqn:He; [discriminate|].
  intros [= <-]. now apply String.eqb_neq.
Qed.

Lemma store_ok_resolveFromNode now k s :
  store_ok s -> k <> "" -> store_ok (snd (resolveFromNode now k s)).
Proof.
  intros Hok Hk. unfold resolveFromNode.
  destruct (findOneAndUpdate _ _ _ _) as [n ns] eqn:Hu. cbn [snd].
  replace ns with (snd (findOneAndUpdate (by_roomKey k) (fun n => n)
                          (node_default now (nextId s) k) (nodes s)))
    by now rewrite Hu.
  now apply store_ok_upsert.
Qed.

Lemma store_ok_resolveToNode now k uid s :
  store_ok s -> k <> "" -> store_ok (snd (resolveToNode now k uid s)).
Proof.
  intros Hok Hk. unfold resolveToNode.
  destruct (findOneAndUpdate _ _ _ _) as [n ns] eqn:Hu. cbn [snd].
  replace ns with (snd (findOneAndUpdate (by_roomKey k) (node_visit now)
      (node_visit now (node_set_creator uid (node_default now (nextId s) k)))
      (nodes s)))
    by now rewrite Hu.
  now apply store_ok_upsert.
Qed.

Lemma store_ok_after_source now d s :
  store_ok s -> store_ok (after_source now d s).
Proof.
  intros Hok. unfold after_source.
  destruct (truthy (jd_fromNodeKey d)) as [fk|] eqn:Hfk; [|exact Hok].
  apply store_ok_resolveFromNode; [exact Hok|].
  now apply truthy_nonempty with (v := jd_fromNodeKey d).
Qed.

(** The document an upsert returns is in the collection it leaves. *)
Lemma findOneAndUpdate_In {A : Type} (p : A -> bool) f fresh (c : list A) :
  In (fst (findOneAndUpdate p f fresh c)) (snd (findOneAndUpdate p f fresh c)).
Proof.
  unfold findOneAndUpdate.
  destruct (findOne p c) as [d|] eqn:Hfind; cbn [fst snd].
  - induction c as [|x c IH]; [discriminate|].
    cbn in *. destruct (p x).
    + injection Hfind as <-. now left.
    + right. auto.
  - apply in_or_app. right. now left.
Qed.

Lemma resolveFromNode_In now k s :
  In (n_id (fst (resolveFromNode now k s)))
     (node_ids (snd (resolveFromNode now k s))).
Proof.
  unfold resolveFromNode, node_ids.
  pose proof (findOneAndUpdate_In (by_roomKey k) (fun n => n)
                (node_default now (nextId s) k) (nodes s)) as H.
  destruct (findOneAndUpdate _ _ _ _) as [n ns]. cbn in *.
  now apply in_map.
Qed.

Lemma resolveToNode_In now k uid s :
  In (n_id (fst (resolveToNode now k uid s)))
     (node_ids (snd (resolveToNode now k uid s))).
Proof.
  unfold resolveToNode, node_ids.
  pose proof (findOneAndUpdate_In (by_roomKey k) (node_visit now)
    (node_visit now (node_set_creator uid (node_default now (nextId s) k)))
    (nodes s)) as H.
  destruct (findOneAndUpdate _ _ _ _) as [n ns]. cbn in *.
  now apply in_map.
Qed.

Lemma resolveToNode_ids_grow now k uid s :
  incl (node_ids s) (node_ids (snd (resolveToNode now k uid s))).
Proof.
  unfold node_ids. rewrite resolveToNode_nodes.
  destruct (findOne _ (nodes s)).
  - rewrite updateFirst_map by reflexivity. apply incl_refl.
  - rewrite map_app. apply incl_appl, incl_refl.
Qed.

Lemma store_ok_Transition_create now uid from to ty dur s :
  store_ok s ->
  In to (node_ids s) ->
  (forall f, from = Some f -> In f (node_ids s)) ->
  store_ok (Transition_create now uid from to ty dur s).
Proof.
  intros [Hkeys Hids Hlids Huids Hne Hnb Hub Htt Htf Hmr] Hto Hfrom.
  constructor; unfold node_ids in *;
    cbn [users nodes messages transitions nextId Transition_create];
    try assumption.
  - eapply Forall_impl; [|exact Hnb]. simpl. intros; lia.
  - eapply Forall_impl; [|exact Hub]. simpl. intros; lia.
  - apply Forall_snoc; [exact Htt|exact Hto].
  - apply Forall_snoc; [exact Htf|exact Hfrom].
Qed.

(** The store a join that passes the guard leaves. *)
Lemma join_store now d s uid tk :
  jd_userId d = Some uid ->
  truthy (jd_toNodeKey d) = Some tk ->
  fst (joinNodeAndLogTransition now d s)
  = Transition_create now uid
      (option_map n_id (source_node now d s))
      (n_id (fst (resolveToNode now tk uid (after_source now d s))))
      (jd_transitionType d) (jd_duration d)
      (snd (resolveToNode now tk uid (after_source now d s))).
Proof.
  intros Hu Ht. unfold joinNodeAndLogTransition, after_source, source_node.
  rewrite Hu, Ht.
  destruct (truthy (jd_fromNodeKey d)) as [fk|].
  - destruct (resolveFromNode now fk s) as [fn s1]. cbn [fst snd].
    destruct (resolveToNode now tk uid s1) as [tn s2]. cbn [fst snd].
    destruct (formatHistory _ _); reflexivity.
  - destruct (resolveToNode now tk uid s) as [tn s2]. cbn [fst snd].
    destruct (formatHistory _ _); reflexivity.
Qed.

Lemma join_rejected now d s :
  jd_userId d = None \/ truthy (jd_toNodeKey d) = None ->
  fst (joinNodeAndLogTransition now d s) = s.
Proof.
  intros [H|H]; unfold joinNodeAndLogTransition; rewrite H;
    [reflexivity | now destruct (jd_userId d)].
Qed.

Lemma join_cases now d s :
  fst (joinNodeAndLogTransition now d s) = s \/
  exists uid tk, jd_userId d = Some uid /\ truthy (jd_toNodeKey d) = Some tk.
Proof.
  destruct (jd_userId d) as [uid|] eqn:Hu;
    [|left; apply join_rejected; now left].
  destruct (truthy (jd_toNodeKey d)) as [tk|] eqn:Ht;
    [|left; apply join_rejected; now right].
  right. eauto.
Qed.

Lemma source_node_In now d s f :
  option_map n_id (source_node now d s) = Some f ->
  In f (node_ids (after_source now d s)).
Proof.
  unfold source_node, after_source.
  destruct (truthy (jd_fromNodeKey d)) as [fk|]; [|discriminate].
  cbn. intros [= <-]. apply resolveFromNode_In.
Qed.

Lemma store_ok_join now d s :
  store_ok s -> store_ok (fst (joinNodeAndLogTransition now d s)).
Proof.
  intros Hok.
  destruct (join_cases now d s) as [->|(uid & tk & Hu & Ht)]; [exact Hok|].
  rewrite (join_store now d s uid tk Hu Ht).
  apply store_ok_Transition_create.
  - apply store_ok_resolveToNode.
    + now apply store_ok_after_source.
    + now apply truthy_nonempty with (v := jd_toNodeKey d).
  - apply resolveToNode_In.
  - intros f Hf. apply resolveToNode_ids_grow. now apply source_node_In.
Qed.

Lemma store_ok_userSetup now d s :
  store_ok s -> store_ok (fst (userSetup now d s)).
Proof.
  intros Hok.
  pose proof (userSetup_keeps_unique now d s (ok_local_ids s Hok)) as Hl.
  pose proof (userSetup_users now d s) as Hus.
  destruct Hok as [Hkeys Hids Hlids Huids Hne Hnb Hub Htt Htf Hmr].
  assert (Hrest : nodes (fst (userSetup now d s)) = nodes s /\
                  messages (fst (userSetup now d s)) = messages s /\
                  transitions (fst (userSetup now d s)) = transitions s /\
                  nextId (fst (userSetup now d s)) = S (nextId s)).
  { unfold userSetup. destruct (findOneAndUpdate _ _ _ _). cbn. auto. }
  destruct Hrest as (Hn & Hm & Ht & Hnext).
  unfold findOneAndUpdate in Hus.
  constructor; unfold node_ids in *; rewrite ?Hn, ?Hm, ?Ht, ?Hnext;
    try assumption.
  - rewrite Hus. destruct (findOne _ (users s)); cbn [snd].
    + now rewrite updateFirst_map.
    + rewrite map_app. cbn [map]. apply NoDup_snoc; [exact Huids|].
      apply below_not_in. now rewrite Forall_map.
  - eapply Forall_impl; [|exact Hnb]. simpl. intros; lia.
  - rewrite Hus. destruct (findOne _ (users s)); cbn [snd].
    + apply Forall_updateFirst; [intros x Hx; exact Hx|].
      eapply Forall_impl; [|exact Hub]. simpl. intros; lia.
    + apply Forall_snoc.
      * eapply Forall_impl; [|exact Hub]. simpl. intros; lia.
      * cbn. lia.
Qed.

Lemma sendMessage_cases now d s :
  fst (sendMessage now d s) = s \/
  exists uid k n,
    sd_userId d = Some uid /\ sd_nodeKey d = Some k /\
    findOne (by_roomKey k) (nodes s) = Some n /\
    fst (sendMessage now d s)
    = {| users := users s;
         nodes := updateFirst (fun x => Nat.eqb (n_id x) (n_id n))
                              (node_message now) (nodes s);
         messages := messages s ++
           [ {| m_id := nextId s; nodeId := n_id n; m_userId := uid;
                text := sd_text d; m_createdAt := now |} ];
         transitions := transitions s;
         nextId := S (nextId s) |}.
Proof.
  unfold sendMessage.
  destruct (sd_userId d) as [uid|]; [|now left].
  destruct (sd_nodeKey d) as [k|]; [|now left].
  destruct (findOne (by_roomKey k) (nodes s)) as [n|] eqn:Hn; [|now left].
  right. exists uid, k, n. do 2 (split; [reflexivity|]).
  split; [exact Hn|].
  match goal with
  | |- context [match ?x with Some _ => _ | None => _ end] => destruct x
  end; reflexivity.
Qed.

Lemma store_ok_sendMessage now d s :
  store_ok s -> store_ok (fst (sendMessage now d s)).
Proof.
  intros Hok.
  destruct (sendMessage_cases now d s)
    as [->|(uid & k & n & Hu & Hk & Hn & ->)]; [exact Hok|].
  destruct (findOne_Some_holds _ _ _ Hn) as [_ Hin].
  destruct Hok as [Hkeys Hids Hlids Huids Hne Hnb Hub Htt Htf Hmr].
  constructor; unfold node_ids in *;
    cbn [users nodes messages transitions nextId];
    rewrite ?(updateFirst_map roomKey), ?(updateFirst_map n_id)
      by reflexivity;
    try assumption.
  - apply Forall_updateFirst; [intros x Hx; exact Hx|exact Hne].
  - apply Forall_updateFirst; [intros x Hx; exact Hx|].
    eapply Forall_impl; [|exact Hnb]. simpl. intros; lia.
  - eapply Forall_impl; [|exact Hub]. simpl. intros; lia.
  - apply Forall_snoc; [exact Hmr|]. cbn. now apply in_map.
Qed.

Lemma store_ok_empty : store_ok empty_store.
Proof. constructor; cbn; constructor. Qed.

Lemma store_ok_step e s : store_ok s -> store_ok (step e s).
Proof.
  intros Hok. destruct e; cbn [step].
  - now apply store_ok_userSetup.
  - now apply store_ok_join.
  - now apply store_ok_sendMessage.
  - exact Hok.
Qed.

(** ** Counters against the logs *)

Lemma Forall_updateFirst_unique {A B : Type} (key : A -> B) p f
      (ns : list A) (n : A) (Q Q' : A -> Prop) :
  NoDup (map key ns) ->
  findOne p ns = Some n ->
  Forall Q ns ->
  Q' (f n) ->
  (forall m, In m ns -> key m <> key n -> Q m -> Q' m) ->
  Forall Q' (updateFirst p f ns).
Proof.
  intros Hnd Hfind HQ Hn Hother.
  induction ns as [|x ns IH]; [discriminate|].
  cbn in *. inversion Hnd as [|? ? Hx Hnd']; subst.
  inversion HQ as [|? ? HQx HQns]; subst.
  destruct (p x).
  - injection Hfind as <-. constructor; [exact Hn|].
    apply Forall_forall. intros m Hm.
    apply Hother; [now right| |].
    + intros Heq. apply Hx. rewrite <- Heq. now apply in_map.
    + rewrite Forall_forall in HQns. now apply HQns.
  - destruct (findOne_Some_holds _ _ _ Hfind) as [_ Hin].
    constructor.
    + apply Hother; [now left| |exact HQx].
      intros Heq. apply Hx. rewrite Heq. now apply in_map.
    + apply IH; auto.
Qed.

Lemma findOne_by_id_unique (ns : list Node) (n : Node) :
  NoDup (map n_id ns) -> In n ns ->
  findOne (fun x => Nat.eqb (n_id x) (n_id n)) ns = Some n.
Proof.
  induction ns as [|x ns IH]; [contradiction|].
  cbn. intros Hnd Hin. inversion Hnd as [|? ? Hx Hnd']; subst.
  destruct Hin as [->|Hin]; [now rewrite Nat.eqb_refl|].
  destruct (Nat.eqb (n_id x) (n_id n)) eqn:He; [|auto].
  apply Nat.eqb_eq in He. elim Hx. rewrite He. now apply in_map.
Qed.

Lemma visits_of_snoc id ts t :
  visits_of id (ts ++ [t])
  = visits_of id ts + (if Nat.eqb (toNodeId t) id then 1 else 0).
Proof.
  unfold visits_of. rewrite filter_app, length_app. cbn [filter].
  destruct (Nat.eqb (toNodeId t) id); cbn [List.length]; lia.
Qed.

Lemma messages_of_snoc id ms m :
  messages_of id (ms ++ [m])
  = messages_of id ms + (if Nat.eqb (nodeId m) id then 1 else 0).
Proof.
  unfold messages_of. rewrite filter_app, length_app. cbn [filter].
  destruct (Nat.eqb (nodeId m) id); cbn [List.length]; lia.
Qed.

Lemma visits_of_fresh id ts :
  ~ In id (map toNodeId ts) -> visits_of id ts = 0.
Proof.
  intros Hnot. unfold visits_of.
  induction ts as [|t ts IH]; [reflexivity|].
  cbn in *. destruct (Nat.eqb (toNodeId t) id) eqn:He.
  - apply Nat.eqb_eq in He. elim Hnot. now left.
  - apply IH. intros H. apply Hnot. now right.
Qed.

Lemma messages_of_fresh id ms :
  ~ In id (map nodeId ms) -> messages_of id ms = 0.
Proof.
  intros Hnot. unfold messages_of.
  induction ms as [|m ms IH]; [reflexivity|].
  cbn in *. destruct (Nat.eqb (nodeId m) id) eqn:He.
  - apply Nat.eqb_eq in He. elim Hnot. now left.
  - apply IH. intros H. apply Hnot. now right.
Qed.

(** The next id names no room yet, so no log entry points at it. *)
Lemma next_id_unvisited s :
  store_ok s ->
  visits_of (nextId s) (transitions s) = 0 /\
  messages_of (nextId s) (messages s) = 0.
Proof.
  intros Hok.
  assert (Hfresh : ~ In (nextId s) (node_ids s)).
  { apply below_not_in. unfold node_ids. rewrite Forall_map.
    exact (ok_nodes_below s Hok). }
  split.
  - apply visits_of_fresh. intros Hin.
    apply in_map_iff in Hin as (t & Ht & Hin). apply Hfresh. rewrite <- Ht.
    pose proof (ok_transitions_to s Hok) as H.
    rewrite Forall_forall in H. now apply H.
  - apply messages_of_fresh. intros Hin.
    apply in_map_iff in Hin as (m & Hm & Hin). apply Hfresh. rewrite <- Hm.
    pose proof (ok_messages_room s Hok) as H.
    rewrite Forall_forall in H. now apply H.
Qed.

Lemma counters_ok_resolveFromNode now k s :
  store_ok s -> counters_ok s ->
  counters_ok (snd (resolveFromNode now k s)).
Proof.
  intros Hok Hc. unfold counters_ok.
  rewrite resolveFromNode_nodes.
  assert (Hsame : forall n, counted s n ->
            counted (snd (resolveFromNode now k s)) n).
  { intros n Hn. unfold counted, resolveFromNode in *.
    destruct (findOneAndUpdate _ _ _ _). exact Hn. }
  destruct (findOne _ (nodes s)).
  - eapply Forall_impl; [exact Hsame|exact Hc].
  - apply Forall_snoc; [eapply Forall_impl; [exact Hsame|exact Hc]|].
    apply Hsame. destruct (next_id_unvisited s Hok) as [Hv Hm].
    split; cbn; congruence.
Qed.

Lemma counters_ok_after_source now d s :
  store_ok s -> counters_ok s -> counters_ok (after_source now d s).
Proof.
  intros Hok Hc. unfold after_source.
  destruct (truthy (jd_fromNodeKey d)); [|exact Hc].
  now apply counters_ok_resolveFromNode.
Qed.

Lemma resolveToNode_fst now k uid s :
  fst (resolveToNode now k uid s)
  = match findOne (by_roomKey k) (nodes s) with
    | Some n => node_visit now n
    | None =>
        node_visit now (node_set_creator uid (node_default now (nextId s) k))
    end.
Proof.
  unfold resolveToNode, findOneAndUpdate.
  destruct (findOne _ (nodes s)); reflexivity.
Qed.

Lemma resolveToNode_logs now k uid s :
  transitions (snd (resolveToNode now k uid s)) = transitions s /\
  messages (snd (resolveToNode now k uid s)) = messages s /\
  users (snd (resolveToNode now k uid s)) = users s.
Proof.
  unfold resolveToNode. destruct (findOneAndUpdate _ _ _ _). cbn. auto.
Qed.

(** The destination upsert and the Transition row, taken together. *)
Lemma counters_ok_visit now k uid from ty dur s :
  store_ok s -> counters_ok s ->
  counters_ok
    (Transition_create now uid from
       (n_id (fst (resolveToNode now k uid s))) ty dur
       (snd (resolveToNode now k uid s))).
Proof.
  intros Hok Hc. unfold counters_ok, counted.
  destruct (resolveToNode_logs now k uid s) as (Hts & Hms & _).
  cbn [nodes transitions messages Transition_create].
  rewrite Hts, Hms, resolveToNode_nodes, resolveToNode_fst.
  destruct (findOne (by_roomKey k) (nodes s)) as [n|] eqn:Hfind.
  - apply (Forall_updateFirst_unique n_id _ _ _ n (counted s));
      [exact (ok_room_ids s Hok)|exact Hfind|exact Hc| |].
    + destruct (findOne_Some_holds _ _ _ Hfind) as [_ Hin].
      unfold counters_ok in Hc. rewrite Forall_forall in Hc.
      destruct (Hc n Hin) as [Hv Hm].
      cbn. rewrite visits_of_snoc. cbn. rewrite Nat.eqb_refl.
      split; [lia|exact Hm].
    + intros m Hin Hne [Hv Hm]. cbn in *.
      rewrite visits_of_snoc. cbn.
      destruct (Nat.eqb (n_id n) (n_id m)) eqn:He;
        [apply Nat.eqb_eq in He; congruence|].
      split; [lia|exact Hm].
  - destruct (next_id_unvisited s Hok) as [Hv0 Hm0].
    apply Forall_snoc.
    + pose proof (ok_nodes_below s Hok) as Hb.
      unfold counters_ok in Hc.
      rewrite Forall_forall in Hb, Hc |- *. intros m Hin.
      destruct (Hc m Hin) as [Hv Hm]. specialize (Hb m Hin).
      rewrite visits_of_snoc. cbn.
      destruct (Nat.eqb (nextId s) (n_id m)) eqn:He;
        [apply Nat.eqb_eq in He; lia|].
      split; [lia|exact Hm].
    + cbn. rewrite visits_of_snoc. cbn. rewrite Nat.eqb_refl.
      split; [lia|congruence].
Qed.

Lemma counters_ok_join now d s :
  store_ok s -> counters_ok s ->
  counters_ok (fst (joinNodeAndLogTransition now d s)).
Proof.
  intros Hok Hc.
  destruct (join_cases now d s) as [->|(uid & tk & Hu & Ht)]; [exact Hc|].
  rewrite (join_store now d s uid tk Hu Ht).
  apply counters_ok_visit.
  - now apply store_ok_after_source.
  - now apply counters_ok_after_source.
Qed.

Lemma counters_ok_userSetup now d s :
  counters_ok s -> counters_ok (fst (userSetup now d s)).
Proof.
  unfold counters_ok, counted, userSetup.
  destruct (findOneAndUpdate _ _ _ _). cbn. auto.
Qed.

Lemma counters_ok_sendMessage now d s :
  store_ok s -> counters_ok s -> counters_ok (fst (sendMessage now d s)).
Proof.
  intros Hok Hc.
  destruct (sendMessage_cases now d s)
    as [->|(uid & k & n & Hu & Hk & Hn & ->)]; [exact Hc|].
  destruct (findOne_Some_holds _ _ _ Hn) as [_ Hin].
  unfold counters_ok, counted. cbn [nodes transitions messages].
  apply (Forall_updateFirst_unique n_id _ _ _ n (counted s));
    [exact (ok_room_ids s Hok)
    |apply findOne_by_id_unique; [exact (ok_room_ids s Hok)|exact Hin]
    |exact Hc| |].
  - unfold counters_ok in Hc. rewrite Forall_forall in Hc.
    destruct (Hc n Hin) as [Hv Hm].
    cbn. rewrite messages_of_snoc. cbn. rewrite Nat.eqb_refl.
    split; [exact Hv|lia].
  - intros m Hm Hne [Hv Hmc]. cbn.
    rewrite messages_of_snoc. cbn.
    destruct (Nat.eqb (n_id n) (n_id m)) eqn:He;
      [apply Nat.eqb_eq in He; congruence|].
    split; [exact Hv|lia].
Qed.

Lemma counters_ok_step e s :
  store_ok s -> counters_ok s -> counters_ok (step e s).
Proof.
  intros Hok Hc. destruct e; cbn [step].
  - now apply counters_ok_userSetup.
  - now apply counters_ok_join.
  - now apply counters_ok_sendMessage.
  - exact Hc.
Qed.

(** X1. The unique indexes and the references between collections survive
    every event: from a store in which room keys are unique and non-empty,
    [localId]s are unique, and every Transition and Message points at a
    stored room, any sequence of [userSetup], [joinNodeAndLogTransition],
    [sendMessage] and [getRecommendation] events leads to such a store
    again. *)
Theorem events_keep_store_ok :
  forall (es : list Event) (s : Store), store_ok s -> store_ok (run es s).
Proof.
  unfold run. induction es as [|e es IH]; intros s Hok; [exact Hok|].
  cbn [fold_left]. apply IH. now apply store_ok_step.
Qed.

(** X2. [visitCount] and [messageCount] stay equal to what the logs hold:
    if every room's [visitCount] is the number of Transitions into it and
    its [messageCount] the number of its Messages, the same is true after
    any sequence of events. *)
Theorem events_keep_counters :
  forall (es : list Event) (s : Store),
    store_ok s -> counters_ok s -> counters_ok (run es s).
Proof.
  unfold run. induction es as [|e es IH]; intros s Hok Hc; [exact Hc|].
  cbn [fold_left]. apply IH.
  - now apply store_ok_step.
  - now apply counters_ok_step.
Qed.

Lemma events_keep_store_ok_instance :
  store_ok empty_store /\
  NoDup (map roomKey
           (nodes (run [JoinEv 1000 join_A_to_B; JoinEv 2000 join_A_to_B]
                       empty_store))).
Proof.
  split; [exact store_ok_empty|].
  apply ok_room_keys. apply events_keep_store_ok. exact store_ok_empty.
Defined.

Lemma events_keep_counters_instance :
  store_ok empty_store /\ counters_ok empty_store /\
  counters_ok (run [JoinEv 1000 join_A_to_B; SendEv 2000 ghost_send;
                    JoinEv 3000 join_A_to_B] empty_store).
Proof.
  split; [exact store_ok_empty|]. split; [constructor|].
  apply events_keep_counters; [exact store_ok_empty|constructor].
Defined.

(** ** The Transition row of a join *)

Lemma resolveFromNode_result now fk s :
  findOne (by_roomKey fk) (nodes (snd (resolveFromNode now fk s)))
  = Some (fst (resolveFromNode now fk s)).
Proof.
  unfold resolveFromNode.
  pose proof (findOneAndUpdate_result (by_roomKey fk) (fun n => n)
                (node_default now (nextId s) fk) (nodes s)) as H.
  destruct (findOneAndUpdate _ _ _ _) as [n ns]. cbn in *. apply H.
  - auto.
  - unfold by_roomKey. cbn. apply String.eqb_refl.
Qed.

Lemma resolveToNode_result now tk uid s :
  findOne (by_roomKey tk) (nodes (snd (resolveToNode now tk uid s)))
  = Some (fst (resolveToNode now tk uid s)).
Proof.
  unfold resolveToNode.
  pose proof (findOneAndUpdate_result (by_roomKey tk) (node_visit now)
    (node_visit now (node_set_creator uid (node_default now (nextId s) tk)))
    (nodes s)) as H.
  destruct (findOneAndUpdate _ _ _ _) as [n ns]. cbn in *. apply H.
  - auto.
  - unfold by_roomKey. cbn. apply String.eqb_refl.
Qed.

(** X3. A join that passes the guard appends exactly one Transition: it
    carries the caller's [userId], the clock reading, the reported duration
    (0 when none was sent) and type; its [toNodeId] is the [_id] of the room
    now stored under [toNodeKey], and its [fromNodeId] is the [_id] of the
    room now stored under [fromNodeKey], or null when no source key was
    sent.  Users and messages are untouched. *)
Theorem join_appends_transition :
  forall (now : Date) (d : JoinData) (s : Store) (uid : ObjectId) (tk : string),
    jd_userId d = Some uid ->
    truthy (jd_toNodeKey d) = Some tk ->
    let s' := fst (joinNodeAndLogTransition now d s) in
    exists t n,
      transitions s' = transitions s ++ [t] /\
      t_userId t = uid /\ t_createdAt t = now /\
      duration t = match jd_duration d with Some x => x | None => 0 end /\
      transitionType t = jd_transitionType d /\
      findOne (by_roomKey tk) (nodes s') = Some n /\
      toNodeId t = n_id n /\
      match truthy (jd_fromNodeKey d) with
      | Some fk => exists m, findOne (by_roomKey fk) (nodes s') = Some m /\
                             fromNodeId t = Some (n_id m)
      | None => fromNodeId t = None
      end /\
      users s' = users s /\ messages s' = messages s.
Proof.
  intros now d s uid tk Hu Ht s'. subst s'.
  rewrite (join_store now d s uid tk Hu Ht).
  destruct (resolveToNode_logs now tk uid (after_source now d s))
    as (Hts & Hms & Hus).
  eexists. exists (fst (resolveToNode now tk uid (after_source now d s))).
  cbn [transitions users messages nodes Transition_create].
  rewrite Hts, Hms, Hus.
  assert (Hsrc : transitions (after_source now d s) = transitions s /\
                 messages (after_source now d s) = messages s /\
                 users (after_source now d s) = users s).
  { unfold after_source, resolveFromNode.
    destruct (truthy (jd_fromNodeKey d)); [|auto].
    destruct (findOneAndUpdate _ _ _ _). cbn. auto. }
  destruct Hsrc as (-> & -> & ->).
  split; [reflexivity|]. cbn.
  do 4 (split; [reflexivity|]).
  split; [apply resolveToNode_result|]. split; [reflexivity|].
  split; [|auto].
  unfold source_node, after_source.
  destruct (truthy (jd_fromNodeKey d)) as [fk|]; [|reflexivity].
  cbn [option_map].
  pose proof (resolveFromNode_result now fk s) as Hfrom.
  destruct (String.eqb fk tk) eqn:He.
  - apply String.eqb_eq in He. subst fk.
    exists (node_visit now (fst (resolveFromNode now tk s))). split.
    + now apply resolveToNode_visits.
    + reflexivity.
  - apply String.eqb_neq in He.
    exists (fst (resolveFromNode now fk s)). split; [|reflexivity].
    now rewrite resolveToNode_keeps_others.
Qed.

(** ** What a stored message does to its room *)

Lemma findOne_key_update_by_id k (f : Node -> Node) (ns : list Node) n :
  (forall x, roomKey (f x) = roomKey x) ->
  NoDup (map n_id ns) ->
  findOne (by_roomKey k) ns = Some n ->
  findOne (by_roomKey k)
          (updateFirst (fun x => Nat.eqb (n_id x) (n_id n)) f ns)
  = Some (f n).
Proof.
  intros Hf. induction ns as [|x ns IH]; [discriminate|].
  cbn. intros Hnd Hfind. inversion Hnd as [|? ? Hx Hnd']; subst.
  destruct (by_roomKey k x) eqn:Hkx.
  - injection Hfind as <-. rewrite Nat.eqb_refl. cbn.
    unfold by_roomKey in *. now rewrite Hf, Hkx.
  - destruct (findOne_Some_holds _ _ _ Hfind) as [_ Hin].
    destruct (Nat.eqb (n_id x) (n_id n)) eqn:He.
    + apply Nat.eqb_eq in He. elim Hx. rewrite He. now apply in_map.
    + cbn. rewrite Hkx. auto.
Qed.

Lemma findOne_other_key_update_by_id k k' (f : Node -> Node)
      (ns : list Node) n :
  (forall x, roomKey (f x) = roomKey x) ->
  NoDup (map n_id ns) ->
  findOne (by_roomKey k) ns = Some n ->
  k' <> k ->
  findOne (by_roomKey k')
          (updateFirst (fun x => Nat.eqb (n_id x) (n_id n)) f ns)
  = findOne (by_roomKey k') ns.
Proof.
  intros Hf Hnd Hfind Hne.
  destruct (findOne_Some_holds _ _ _ Hfind) as [Hkn Hin].
  clear Hfind. induction ns as [|x ns IH]; [reflexivity|].
  cbn. inversion Hnd as [|? ? Hx Hnd']; subst.
  destruct (Nat.eqb (n_id x) (n_id n)) eqn:He.
  - apply Nat.eqb_eq in He.
    assert (x = n).
    { destruct Hin as [->|Hin]; [reflexivity|].
      elim Hx. rewrite He. now apply in_map. }
    subst x. cbn.
    assert (Hk' : by_roomKey k' n = false)
      by (apply by_roomKey_neq with (k' := k); auto).
    unfold by_roomKey in *. now rewrite Hf, Hk'.
  - cbn. destruct (by_roomKey k' x); [reflexivity|].
    destruct Hin as [->|Hin]; [rewrite Nat.eqb_refl in He; discriminate|].
    auto.
Qed.

(** X4. When [sendMessage] accepts a message for the room stored under
    [nodeKey], that room's [messageCount] goes up by one and its
    [lastActivityAt] becomes the clock reading, with [visitCount],
    [creatorId], [createdAt], key and [_id] as before; every other room, the
    users and the transitions are unchanged.  Room [_id]s are unique. *)
Theorem sendMessage_counts_message :
  forall (now : Date) (d : SendData) (s : Store)
         (uid : ObjectId) (k : string) (n : Node),
    NoDup (node_ids s) ->
    sd_userId d = Some uid ->
    sd_nodeKey d = Some k ->
    findOne (by_roomKey k) (nodes s) = Some n ->
    let s' := fst (sendMessage now d s) in
    exists n',
      findOne (by_roomKey k) (nodes s') = Some n' /\
      messageCount n' = messageCount n + 1 /\
      lastActivityAt n' = now /\
      visitCount n' = visitCount n /\ creatorId n' = creatorId n /\
      n_createdAt n' = n_createdAt n /\ roomKey n' = roomKey n /\
      n_id n' = n_id n /\
      (forall k', k' <> k ->
         findOne (by_roomKey k') (nodes s') = findOne (by_roomKey k') (nodes s)) /\
      users s' = users s /\ transitions s' = transitions s.
Proof.
  intros now d s uid k n Hnd Hu Hk Hn s'. subst s'.
  destruct (sendMessage_cases now d s)
    as [Hsame|(uid' & k0 & n0 & Hu' & Hk' & Hn' & ->)].
  - exfalso. unfold sendMessage in Hsame. rewrite Hu, Hk, Hn in Hsame.
    match type of Hsame with
    | context [match ?x with Some _ => _ | None => _ end] => destruct x
    end; cbn in Hsame;
      apply (f_equal (fun st => List.length (messages st))) in Hsame;
      cbn in Hsame; rewrite length_app in Hsame; cbn in Hsame; lia.
  - rewrite Hk in Hk'. injection Hk' as <-.
    rewrite Hn in Hn'. injection Hn' as <-.
    exists (node_message now n). cbn [nodes users transitions].
    split; [now apply findOne_key_update_by_id|].
    do 7 (split; [reflexivity|]).
    split; [|auto].
    intros k' Hne. now apply findOne_other_key_update_by_id with (k := k).
Qed.

(** ** From session setup to a broadcast *)

Lemma findOne_user_by_id_unique (us : list User) (u : User) :
  NoDup (map u_id us) -> In u us ->
  findOne (fun x => Nat.eqb (u_id x) (u_id u)) us = Some u.
Proof.
  induction us as [|x us IH]; [contradiction|].
  cbn. intros Hnd Hin. inversion Hnd as [|? ? Hx Hnd']; subst.
  destruct Hin as [->|Hin]; [now rewrite Nat.eqb_refl|].
  destruct (Nat.eqb (u_id x) (u_id u)) eqn:He; [|auto].
  apply Nat.eqb_eq in He. elim Hx. rewrite He. now apply in_map.
Qed.

Lemma after_source_logs now d s :
  transitions (after_source now d s) = transitions s /\
  messages (after_source now d s) = messages s /\
  users (after_source now d s) = users s.
Proof.
  unfold after_source, resolveFromNode.
  destruct (truthy (jd_fromNodeKey d)); [|auto].
  destruct (findOneAndUpdate _ _ _ _). cbn. auto.
Qed.

(** The effects of a join that passes the guard. *)
Lemma join_effects now d s uid tk :
  jd_userId d = Some uid ->
  truthy (jd_toNodeKey d) = Some tk ->
  snd (joinNodeAndLogTransition now d s)
  = (match truthy (jd_fromNodeKey d) with
     | Some fk => [SocketLeave fk]
     | None => []
     end ++ [SocketJoin tk]) ++
    [match formatHistory (users s)
             (fetchHistory
                (n_id (fst (resolveToNode now tk uid (after_source now d s))))
                HISTORY_LIMIT (messages s)) with
     | Some items => EmitHistory items
     | None => ConsoleError "[join] failed"
     end].
Proof.
  intros Hu Ht.
  destruct (resolveToNode_logs now tk uid (after_source now d s))
    as (_ & Hms & Hus).
  destruct (after_source_logs now d s) as (_ & Hms' & Hus').
  rewrite Hms' in Hms. rewrite Hus' in Hus.
  unfold joinNodeAndLogTransition, after_source in *.
  rewrite Hu, Ht.
  destruct (truthy (jd_fromNodeKey d)) as [fk|].
  - destruct (resolveFromNode now fk s) as [fn s1]. cbn [fst snd] in *.
    destruct (resolveToNode now tk uid s1) as [tn s2]. cbn [fst snd] in *.
    cbn [users messages Transition_create]. rewrite Hms, Hus.
    destruct (formatHistory _ _); reflexivity.
  - destruct (resolveToNode now tk uid s) as [tn s2]. cbn [fst snd] in *.
    cbn [users messages Transition_create]. rewrite Hms, Hus.
    destruct (formatHistory _ _); reflexivity.
Qed.

Lemma join_appends_transition_aux now d s uid tk :
  jd_userId d = Some uid ->
  truthy (jd_toNodeKey d) = Some tk ->
  exists n,
    findOne (by_roomKey tk) (nodes (fst (joinNodeAndLogTransition now d s)))
    = Some n /\
    users (fst (joinNodeAndLogTransition now d s)) = users s.
Proof.
  intros Hu Ht. rewrite (join_store now d s uid tk Hu Ht).
  destruct (resolveToNode_logs now tk uid (after_source now d s))
    as (_ & _ & Hus).
  destruct (after_source_logs now d s) as (_ & _ & Hus').
  eexists. cbn [nodes users Transition_create].
  split; [apply resolveToNode_result|congruence].
Qed.

Lemma userSetup_reply now d s :
  snd (userSetup now d s)
  = let user := fst (findOneAndUpdate (by_localId (us_localId d))
           (user_set (updateFields now d))
           (user_insert now (nextId s) (us_localId d) (updateFields now d))
           (users s)) in
    [ConsoleLog "[userSetup]";
     EmitSessionEstablished (u_id user) (nickname user)].
Proof.
  unfold userSetup. destruct (findOneAndUpdate _ _ _ _). reflexivity.
Qed.

(** X5. The id that [userSetup] replies with is good for the whole
    session: after [userSetup], a join into room [k] with that id and a
    [sendMessage] with that id for [k] ends in exactly one broadcast to room
    [k], carrying the text, the id, the nickname given at setup and the
    clock reading, and the message is stored. *)
Theorem session_message_is_broadcast :
  forall (now1 now2 now3 : Date) (d : UserSetupData) (s : Store)
         (from : option string) (dur : option Z) (ty : option string)
         (k msg : string),
    store_ok s -> k <> "" ->
    exists uid,
      filter is_reply (snd (userSetup now1 d s))
      = [EmitSessionEstablished uid (us_nickname d)] /\
      let s2 :=
        fst (joinNodeAndLogTransition now2
               {| jd_userId := Some uid; jd_fromNodeKey := from;
                  jd_toNodeKey := Some k; jd_duration := dur;
                  jd_transitionType := ty |}
               (fst (userSetup now1 d s))) in
      let out :=
        sendMessage now3
          {| sd_userId := Some uid; sd_nodeKey := Some k; sd_text := msg |}
          s2 in
      snd out
      = [BroadcastReceiveMessage k
           {| h_text := msg; h_userId := uid;
              h_senderNickname := us_nickname d; h_createdAt := now3 |}] /\
      exists m, messages (fst out) = messages s2 ++ [m] /\
                text m = msg /\ m_userId m = uid.
Proof.
  intros now1 now2 now3 d s from dur ty k msg Hok Hk.
  pose proof (store_ok_userSetup now1 d s Hok) as Hok1.
  pose proof (userSetup_resolves now1 d s) as Hres.
  set (user := fst (findOneAndUpdate (by_localId (us_localId d))
           (user_set (updateFields now1 d))
           (user_insert now1 (nextId s) (us_localId d) (updateFields now1 d))
           (users s))) in *.
  assert (Hnick : nickname user = us_nickname d).
  { subst user. unfold findOneAndUpdate.
    destruct (findOne _ (users s)); reflexivity. }
  exists (u_id user). split.
  { rewrite userSetup_reply. fold user. cbn. now rewrite Hnick. }
  set (s1 := fst (userSetup now1 d s)) in *.
  set (jd := {| jd_userId := Some (u_id user); jd_fromNodeKey := from;
                jd_toNodeKey := Some k; jd_duration := dur;
                jd_transitionType := ty |}).
  assert (Htruthy : truthy (jd_toNodeKey jd) = Some k).
  { cbn. destruct (String.eqb k "") eqn:He; [|reflexivity].
    apply String.eqb_eq in He. contradiction. }
  cbn zeta.
  destruct (join_appends_transition_aux now2 jd s1 (u_id user) k eq_refl Htruthy)
    as (n & Hn & Hus).
  destruct (findOne_Some_holds _ _ _ Hres) as [_ Hin].
  pose proof (findOne_user_by_id_unique (users s1) user
                (ok_user_ids s1 Hok1) Hin) as Hbyid.
  unfold sendMessage. cbn [sd_userId sd_nodeKey sd_text].
  rewrite Hn. cbn [users]. rewrite Hus, Hbyid. cbn.
  rewrite Hnick. split; [reflexivity|].
  eexists. split; [reflexivity|]. split; reflexivity.
Qed.

(** ** The history reply *)

(** A history item as the handler builds it from a message and its
    sender. *)
Lemma formatHistory_known us ms :
  Forall (fun m => exists u,
            findOne (fun x => Nat.eqb (u_id x) (m_userId m)) us = Some u) ms ->
  exists items,
    formatHistory us ms = Some items /\
    Forall2 (fun m it =>
               h_text it = text m /\ h_createdAt it = m_createdAt m /\
               exists u,
                 findOne (fun x => Nat.eqb (u_id x) (m_userId m)) us = Some u /\
                 h_userId it = u_id u /\ h_senderNickname it = nickname u)
            ms items.
Proof.
  induction 1 as [|m ms [u Hu] Hms (items & Hitems & Hall)].
  - exists []. split; [reflexivity|constructor].
  - eexists. cbn. rewrite Hu, Hitems. split; [reflexivity|].
    constructor; [|exact Hall]. cbn.
    split; [reflexivity|]. split; [reflexivity|]. exists u. auto.
Qed.

Lemma formatHistory_unknown us ms :
  Exists (fun m =>
            findOne (fun x => Nat.eqb (u_id x) (m_userId m)) us = None) ms ->
  formatHistory us ms = None.
Proof.
  induction 1 as [m ms Hm|m ms Hex IH]; cbn.
  - now rewrite Hm.
  - rewrite IH. now destruct (findOne _ us).
Qed.

Lemma fetchHistory_bound roomId limit ms :
  (0 < limit)%nat ->
  (List.length (fetchHistory roomId limit ms) <= limit)%nat.
Proof.
  intros Hpos. unfold fetchHistory, cursor_limit.
  destruct limit; [lia|]. apply firstn_le_length.
Qed.

(** X6. A join that passes the guard leaves the source room of the socket
    (when one was named), enters the destination room, and then answers
    with the history of the destination: when the sender of each of its
    first 50 messages is a stored user, one [history] event of at most 50
    items, each with the message's text and time and its sender's id and
    current nickname; when one of those senders is unknown, no reply at all
    and a console error, although the room change and the Transition row
    are already done. *)
Theorem join_history_reply :
  forall (now : Date) (d : JoinData) (s : Store) (uid : ObjectId) (tk : string),
    jd_userId d = Some uid ->
    truthy (jd_toNodeKey d) = Some tk ->
    let out := joinNodeAndLogTransition now d s in
    exists n t,
      findOne (by_roomKey tk) (nodes (fst out)) = Some n /\
      transitions (fst out) = transitions s ++ [t] /\
      let window := fetchHistory (n_id n) HISTORY_LIMIT (messages s) in
      let rooms :=
        match truthy (jd_fromNodeKey d) with
        | Some fk => [SocketLeave fk]
        | None => []
        end ++ [SocketJoin tk] in
      (Forall (fun m => exists u,
                 findOne (fun x => Nat.eqb (u_id x) (m_userId m)) (users s)
                 = Some u) window ->
       exists items,
         snd out = rooms ++ [EmitHistory items] /\
         (List.length items <= 50)%nat /\
         Forall2 (fun m it =>
                    h_text it = text m /\ h_createdAt it = m_createdAt m /\
                    exists u,
                      findOne (fun x => Nat.eqb (u_id x) (m_userId m))
                              (users s) = Some u /\
                      h_userId it = u_id u /\
                      h_senderNickname it = nickname u)
                 window items) /\
      (Exists (fun m =>
                 findOne (fun x => Nat.eqb (u_id x) (m_userId m)) (users s)
                 = None) window ->
       filter is_reply (snd out) = [] /\
       exists line, snd out = rooms ++ [ConsoleError line]).
Proof.
  intros now d s uid tk Hu Ht out. subst out.
  rewrite (join_effects now d s uid tk Hu Ht).
  rewrite (join_store now d s uid tk Hu Ht).
  exists (fst (resolveToNode now tk uid (after_source now d s))).
  eexists. cbn [nodes transitions Transition_create].
  split; [apply resolveToNode_result|].
  destruct (resolveToNode_logs now tk uid (after_source now d s))
    as (Hts & _ & _).
  destruct (after_source_logs now d s) as (Hts' & _ & _).
  split; [rewrite Hts, Hts'; reflexivity|].
  cbn zeta. split.
  - intros Hknown.
    destruct (formatHistory_known _ _ Hknown) as (items & Hfmt & Hall).
    exists items. rewrite Hfmt. split; [reflexivity|]. split; [|exact Hall].
    rewrite <- (Forall2_length Hall).
    apply (fetchHistory_bound _ HISTORY_LIMIT). unfold HISTORY_LIMIT. lia.
  - intros Hunknown. rewrite (formatHistory_unknown _ _ Hunknown).
    split; [|eauto].
    rewrite !filter_app. cbn.
    destruct (truthy (jd_fromNodeKey d)); reflexivity.
Qed.

(** The room a join creates has an [_id] no stored room has. *)
Lemma new_room_id_fresh now d s uid tk :
  store_ok s ->
  findOne (by_roomKey tk) (nodes s) = None ->
  ~ In (n_id (fst (resolveToNode now tk uid (after_source now d s))))
       (node_ids s).
Proof.
  intros Hok Hnone.
  assert (Hbelow : forall i, (nextId s <= i)%nat -> ~ In i (node_ids s)).
  { intros i Hi Hin. pose proof (ok_nodes_below s Hok) as Hb.
    unfold node_ids in Hin. apply in_map_iff in Hin as (x & <- & Hx).
    rewrite Forall_forall in Hb. specialize (Hb x Hx). lia. }
  rewrite resolveToNode_fst. unfold after_source.
  destruct (truthy (jd_fromNodeKey d)) as [fk|].
  - rewrite resolveFromNode_nodes.
    assert (Hnext : nextId (snd (resolveFromNode now fk s)) = S (nextId s)).
    { unfold resolveFromNode. destruct (findOneAndUpdate _ _ _ _).
      reflexivity. }
    rewrite Hnext.
    destruct (findOne (by_roomKey fk) (nodes s)).
    + rewrite Hnone. cbn. apply Hbelow. lia.
    + destruct (by_roomKey tk (node_default now (nextId s) fk)) eqn:Hk.
      * rewrite (findOne_app_fresh _ _ _ Hnone Hk). cbn. apply Hbelow. lia.
      * rewrite (findOne_app_other _ _ _ Hk), Hnone. cbn. apply Hbelow. lia.
  - rewrite Hnone. cbn. apply Hbelow. lia.
Qed.

Lemma counters_ok_visit_new now d s uid tk :
  store_ok s ->
  findOne (by_roomKey tk) (nodes s) = None ->
  visitCount (fst (resolveToNode now tk uid (after_source now d s))) = 1 /\
  messageCount (fst (resolveToNode now tk uid (after_source now d s))) = 0.
Proof.
  intros Hok Hnone. rewrite resolveToNode_fst. unfold after_source.
  destruct (truthy (jd_fromNodeKey d)) as [fk|].
  - rewrite resolveFromNode_nodes.
    destruct (findOne (by_roomKey fk) (nodes s)).
    + rewrite Hnone. cbn. auto.
    + destruct (by_roomKey tk (node_default now (nextId s) fk)) eqn:Hk.
      * rewrite (findOne_app_fresh _ _ _ Hnone Hk). cbn. auto.
      * rewrite (findOne_app_other _ _ _ Hk), Hnone. cbn. auto.
  - rewrite Hnone. cbn. auto.
Qed.

(** X7. Entering a room that did not exist yields an empty history: the
    join creates the room and replies with [history] of no items. *)
Theorem join_new_room_empty_history :
  forall (now : Date) (d : JoinData) (s : Store) (uid : ObjectId) (tk : string),
    store_ok s ->
    jd_userId d = Some uid ->
    truthy (jd_toNodeKey d) = Some tk ->
    findOne (by_roomKey tk) (nodes s) = None ->
    filter is_reply (snd (joinNodeAndLogTransition now d s))
    = [EmitHistory []] /\
    exists n, findOne (by_roomKey tk)
                (nodes (fst (joinNodeAndLogTransition now d s))) = Some n /\
              visitCount n = 1 /\ messageCount n = 0.
Proof.
  intros now d s uid tk Hok Hu Ht Hnone.
  pose proof (new_room_id_fresh now d s uid tk Hok Hnone) as Hfresh.
  split.
  - rewrite (join_effects now d s uid tk Hu Ht).
    assert (Hempty :
      fetchHistory (n_id (fst (resolveToNode now tk uid (after_source now d s))))
                   HISTORY_LIMIT (messages s) = []).
    { unfold fetchHistory.
      replace (filter _ (messages s)) with (@nil Message); [reflexivity|].
      symmetry.
      pose proof (ok_messages_room s Hok) as Hm.
      induction (messages s) as [|m ms IH]; [reflexivity|].
      inversion Hm as [|? ? Hin Hms]; subst. cbn.
      destruct (Nat.eqb (nodeId m) _) eqn:He.
      - apply Nat.eqb_eq in He. elim Hfresh. now rewrite <- He.
      - now apply IH. }
    rewrite Hempty. cbn [formatHistory]. rewrite !filter_app. cbn.
    destruct (truthy (jd_fromNodeKey d)); reflexivity.
  - rewrite (join_store now d s uid tk Hu Ht).
    cbn [nodes Transition_create].
    exists (fst (resolveToNode now tk uid (after_source now d s))).
    split; [apply resolveToNode_result|].
    destruct (counters_ok_visit_new now d s uid tk Hok Hnone) as [Hv Hm].
    auto.
Qed.

(** ** Recommendations *)

Lemma recommendation_nonempty rnd key s n :
  In n (nodes s) -> roomKey n <> key ->
  exists m, recommendation rnd key s = [m].
Proof.
  intros Hin Hne. unfold recommendation. apply sample1_nonempty.
  intros Hnil.
  assert (Hf : In n (filter (fun n => negb (String.eqb (roomKey n) key))
                            (nodes s))).
  { apply filter_In. split; [exact Hin|].
    apply negb_true_iff. now apply String.eqb_neq. }
  rewrite Hnil in Hf. contradiction.
Qed.

(** X8. The current server answers every [getRecommendation] with exactly
    one [recommendationResult]: when some room has another key, the key of
    a stored room other than the requested one; when none has, [null]. *)
Theorem getRecommendation_other_room :
  forall (rnd : nat) (key : string) (s : Store),
    exists r,
      getRecommendation rnd key s = [EmitRecommendationResult r] /\
      match r with
      | Some k => k <> key /\ In k (map roomKey (nodes s))
      | None => forall n, In n (nodes s) -> roomKey n = key
      end /\
      ((exists n, In n (nodes s) /\ roomKey n <> key) -> r <> None).
Proof.
  intros rnd key s. unfold getRecommendation.
  destruct (recommendation rnd key s) as [|m l] eqn:Hrec.
  - exists None. split; [reflexivity|].
    assert (Hall : forall n, In n (nodes s) -> roomKey n = key).
    { intros n Hin. destruct (String.eqb (roomKey n) key) eqn:He;
        [now apply String.eqb_eq|].
      apply String.eqb_neq in He.
      destruct (recommendation_nonempty rnd key s n Hin He) as [x Hx].
      congruence. }
    split; [exact Hall|].
    intros (n & Hin & Hne). elim Hne. now apply Hall.
  - exists (Some (roomKey m)). split; [reflexivity|].
    destruct (recommendation_differs rnd key s m) as [Hin Hne];
      [rewrite Hrec; now left|].
    split; [|discriminate].
    split; [exact Hne|now apply in_map].
Qed.

(** X9. The earlier server file answers only when it has a room to name:
    with some room under another key, one [recommendationResult] carrying
    the key of a stored room other than the requested one; with none,
    nothing. *)
Theorem getRecommendation_v1_other_room :
  forall (rnd : nat) (key : string) (s : Store),
    ((exists n, In n (nodes s) /\ roomKey n <> key) ->
     exists k, ServerV1.getRecommendation rnd key s
               = [EmitRecommendationResult (Some k)] /\
               k <> key /\ In k (map roomKey (nodes s))) /\
    ((forall n, In n (nodes s) -> roomKey n = key) ->
     ServerV1.getRecommendation rnd key s = []).
Proof.
  intros rnd key s. unfold ServerV1.getRecommendation. split.
  - intros (n & Hin & Hne).
    destruct (recommendation_nonempty rnd key s n Hin Hne) as [m Hm].
    rewrite Hm. exists (roomKey m).
    destruct (recommendation_differs rnd key s m) as [Hin' Hne'];
      [rewrite Hm; now left|].
    split; [reflexivity|]. split; [exact Hne'|now apply in_map].
  - intros Hall.
    destruct (recommendation rnd key s) as [|m l] eqn:Hrec; [reflexivity|].
    destruct (recommendation_differs rnd key s m) as [Hin Hne];
      [rewrite Hrec; now left|].
    elim Hne. now apply Hall.
Qed.

(** ** The aggregation pipeline *)

Lemma group_add_upsert t gs :
  group_add t gs
  = snd (findOneAndUpdate (fun g => Nat.eqb (g_id g) (toNodeId t))
                          (group_acc t) (group_new t) gs).
Proof.
  unfold findOneAndUpdate.
  induction gs as [|g gs IH]; [reflexivity|].
  cbn. destruct (Nat.eqb (g_id g) (toNodeId t)); [reflexivity|].
  rewrite IH. now destruct (findOne _ gs).
Qed.

Lemma durations_of_snoc id ts t :
  durations_of id (ts ++ [t])
  = durations_of id ts + (if Nat.eqb (toNodeId t) id then duration t else 0).
Proof.
  unfold durations_of. rewrite filter_app, map_app. cbn [filter].
  induction (map duration (filter _ ts)) as [|x l IH]; cbn.
  - destruct (Nat.eqb (toNodeId t) id); cbn; lia.
  - rewrite IH. lia.
Qed.

Lemma addToSet_In x l u : In u (addToSet x l) <-> u = x \/ In u l.
Proof.
  unfold addToSet. destruct (existsb (Nat.eqb x) l) eqn:He.
  - split; [auto|]. intros [->|H]; [|exact H].
    apply existsb_exists in He as (y & Hy & Hxy).
    apply Nat.eqb_eq in Hxy. now subst.
  - rewrite in_app_iff. cbn. intuition.
Qed.

Lemma addToSet_NoDup x l : NoDup l -> NoDup (addToSet x l).
Proof.
  intros Hl. unfold addToSet. destruct (existsb (Nat.eqb x) l) eqn:He.
  - exact Hl.
  - apply NoDup_snoc; [exact Hl|]. intros Hin.
    assert (existsb (Nat.eqb x) l = true); [|congruence].
    apply existsb_exists. exists x. split; [exact Hin|apply Nat.eqb_refl].
Qed.

Lemma visitor_snoc id ts t u :
  visitor id (ts ++ [t]) u
  <-> visitor id ts u \/ (toNodeId t = id /\ t_userId t = u).
Proof.
  unfold visitor. split.
  - intros (x & Hin & Hid & Hu). apply in_app_iff in Hin as [Hin|[<-|[]]].
    + left. eauto.
    + now right.
  - intros [(x & Hin & Hid & Hu)|[Hid Hu]].
    + exists x. split; [apply in_or_app; now left|auto].
    + exists t. split; [apply in_or_app; right; now left|auto].
Qed.

(** One more transition, seen from a group of another room. *)
Lemma describes_other ts t g :
  g_id g <> toNodeId t -> describes ts g -> describes (ts ++ [t]) g.
Proof.
  intros Hne [Hv Hv1 Hd Hnd Hu Hb Ha].
  assert (He : Nat.eqb (toNodeId t) (g_id g) = false)
    by (apply Nat.eqb_neq; congruence).
  constructor.
  - rewrite visits_of_snoc, He. lia.
  - exact Hv1.
  - rewrite durations_of_snoc, He. lia.
  - exact Hnd.
  - intros u. rewrite visitor_snoc, Hu. intuition congruence.
  - intros x Hin Hid. apply in_app_iff in Hin as [Hin|[<-|[]]];
      [auto|congruence].
  - destruct Ha as (x & Hin & Hx). exists x.
    split; [apply in_or_app; now left|exact Hx].
Qed.

(** One more transition into the room of the group. *)
Lemma describes_acc ts t g :
  g_id g = toNodeId t -> describes ts g ->
  describes (ts ++ [t]) (group_acc t g).
Proof.
  intros Hid [Hv Hv1 Hd Hnd Hu Hb Ha].
  assert (He : Nat.eqb (toNodeId t) (g_id g) = true)
    by (apply Nat.eqb_eq; congruence).
  constructor; cbn [g_id g_totalVisits g_uniqueUsers g_totalDuration
                    g_lastActivity group_acc].
  - rewrite visits_of_snoc, He. lia.
  - lia.
  - rewrite durations_of_snoc, He. lia.
  - now apply addToSet_NoDup.
  - intros u. rewrite addToSet_In, visitor_snoc, Hu.
    intuition congruence.
  - intros x Hin Hx. apply in_app_iff in Hin as [Hin|[<-|[]]].
    + specialize (Hb x Hin Hx). lia.
    + lia.
  - destruct (Z.max_spec (g_lastActivity g) (t_createdAt t))
      as [[_ ->]|[_ ->]].
    + exists t. split; [apply in_or_app; right; now left|auto].
    + destruct Ha as (x & Hin & Hx). exists x.
      split; [apply in_or_app; now left|exact Hx].
Qed.

(** The first transition into a room. *)
Lemma describes_new ts t :
  ~ In (toNodeId t) (map toNodeId ts) ->
  describes (ts ++ [t]) (group_new t).
Proof.
  intros Hnew.
  assert (Hnone : forall x, In x ts -> toNodeId x <> toNodeId t).
  { intros x Hin Heq. apply Hnew. rewrite <- Heq. now apply in_map. }
  constructor; cbn [g_id g_totalVisits g_uniqueUsers g_totalDuration
                    g_lastActivity group_new].
  - rewrite visits_of_snoc, Nat.eqb_refl, visits_of_fresh by exact Hnew.
    reflexivity.
  - lia.
  - rewrite durations_of_snoc, Nat.eqb_refl.
    replace (durations_of (toNodeId t) ts) with 0; [lia|].
    unfold durations_of.
    replace (filter _ ts) with (@nil Transition); [reflexivity|].
    symmetry. clear Hnew. induction ts as [|x ts IH]; [reflexivity|].
    cbn. destruct (Nat.eqb (toNodeId x) (toNodeId t)) eqn:He.
    + apply Nat.eqb_eq in He. elim (Hnone x); [now left|exact He].
    + apply IH. intros y Hy. apply Hnone. now right.
  - repeat constructor. intros [].
  - intros u. rewrite visitor_snoc. cbn. split.
    + intros [<-|[]]. now right.
    + intros [(x & Hin & Hx & _)|[_ ->]]; [|now left].
      elim (Hnone x Hin Hx).
  - intros x Hin Hx. apply in_app_iff in Hin as [Hin|[<-|[]]].
    + elim (Hnone x Hin Hx).
    + lia.
  - exists t. split; [apply in_or_app; right; now left|auto].
Qed.

Lemma grouped_step ts gs t :
  grouped ts gs -> grouped (ts ++ [t]) (group_add t gs).
Proof.
  intros [Hnd Hds Hids]. rewrite group_add_upsert.
  unfold findOneAndUpdate.
  destruct (findOne _ gs) as [g0|] eqn:Hfind; cbn [snd].
  - destruct (findOne_Some_holds _ _ _ Hfind) as [Hp Hin].
    apply Nat.eqb_eq in Hp.
    constructor.
    + now rewrite updateFirst_map.
    + apply (Forall_updateFirst_unique g_id _ _ _ g0 (describes ts));
        [exact Hnd|exact Hfind|exact Hds| |].
      * apply describes_acc; [exact Hp|].
        rewrite Forall_forall in Hds. now apply Hds.
      * intros g Hg Hne Hd. apply describes_other; [congruence|exact Hd].
    + intros id. rewrite updateFirst_map by reflexivity.
      rewrite map_app, in_app_iff, Hids. cbn. split; [auto|].
      intros [H|[<-|[]]]; [exact H|].
      apply Hids. rewrite <- Hp. now apply in_map.
  - assert (Hnew : ~ In (toNodeId t) (map g_id gs)).
    { intros Hin. apply in_map_iff in Hin as (g & Hg & Hin).
      pose proof (findOne_None_all _ _ Hfind g Hin) as Hf. cbn in Hf.
      rewrite Hg, Nat.eqb_refl in Hf. discriminate. }
    constructor.
    + rewrite map_app. cbn. now apply NoDup_snoc.
    + apply Forall_snoc.
      * rewrite Forall_forall in Hds |- *. intros g Hg.
        apply describes_other; [|now apply Hds].
        intros Heq. apply Hnew. rewrite <- Heq. now apply in_map.
      * apply describes_new. now rewrite <- Hids.
    + intros id. rewrite !map_app, !in_app_iff, Hids. cbn. tauto.
Qed.

Lemma grouped_fold ts : forall seen gs,
  grouped seen gs ->
  grouped (seen ++ ts) (fold_left (fun gs t => group_add t gs) ts gs).
Proof.
  induction ts as [|t ts IH]; intros seen gs Hg; cbn [fold_left].
  - now rewrite app_nil_r.
  - replace (seen ++ t :: ts) with ((seen ++ [t]) ++ ts)
      by (rewrite <- app_assoc; reflexivity).
    apply IH. now apply grouped_step.
Qed.

Lemma group_by_toNodeId_grouped ts : grouped ts (group_by_toNodeId ts).
Proof.
  unfold group_by_toNodeId.
  apply (grouped_fold ts [] []).
  constructor; cbn; [constructor|constructor|tauto].
Qed.

Lemma visitors_bounded id ts us :
  NoDup us -> (forall u, In u us -> visitor id ts u) ->
  Z.of_nat (List.length us) <= visits_of id ts.
Proof.
  intros Hnd Hall. unfold visits_of. apply inj_le.
  rewrite <- (length_map t_userId
                (filter (fun t => Nat.eqb (toNodeId t) id) ts)).
  apply NoDup_incl_length; [exact Hnd|].
  intros u Hu. destruct (Hall u Hu) as (t & Hin & Hid & <-).
  apply in_map. apply filter_In. split; [exact Hin|].
  now apply Nat.eqb_eq.
Qed.

Lemma aggregatedData_In now hours minVisits s h :
  In h (aggregatedData now hours minVisits s) <->
  minVisits <= totalVisits h /\
  exists g n,
    In g (group_by_toNodeId (window now hours s)) /\
    In n (nodes s) /\ n_id n = g_id g /\
    h = {| hn_roomKey := roomKey n;
           totalVisits := g_totalVisits g;
           uniqueUsersCount := List.length (g_uniqueUsers g);
           avgDurationPerVisit :=
             if g_totalVisits g =? 0 then 0%Q
             else (inject_Z (g_totalDuration g)
                   / inject_Z (g_totalVisits g))%Q;
           lastActivity := g_lastActivity g;
           createdAt := n_createdAt n |}.
Proof.
  unfold aggregatedData, window, lookup_project.
  rewrite filter_In, in_flat_map, Z.leb_le. split.
  - intros [(g & Hg & Hin) Hmin]. split; [exact Hmin|].
    apply in_map_iff in Hin as (n & <- & Hn).
    apply filter_In in Hn as [Hn He]. apply Nat.eqb_eq in He.
    exists g, n. auto.
  - intros [Hmin (g & n & Hg & Hn & Hid & ->)]. split; [|exact Hmin].
    exists g. split; [exact Hg|].
    apply in_map_iff. exists n. split; [reflexivity|].
    apply filter_In. split; [exact Hn|]. now apply Nat.eqb_eq.
Qed.

Lemma window_In now hours s t :
  In t (window now hours s)
  <-> In t (transitions s) /\ cutoffDate now hours <= t_createdAt t.
Proof. unfold window. now rewrite filter_In, Z.leb_le. Qed.

(** X10. Every row the aggregation hands to the scoring step belongs to a
    stored room and reports what the transitions of the window say of it:
    [totalVisits] is the number of transitions into the room within the
    window, at least 1 (the division guard never fires) and at least
    [minVisits]; [uniqueUsersCount] is the number of distinct users among
    them, between 1 and [totalVisits]; the average is the sum of their
    durations over their number; [lastActivity] is the latest of their
    times, not before the cut-off. *)
Theorem aggregatedData_describes_window :
  forall (now : Date) (hours minVisits : Z) (s : Store) (h : HotNode),
    In h (aggregatedData now hours minVisits s) ->
    exists n,
      In n (nodes s) /\
      hn_roomKey h = roomKey n /\ createdAt h = n_createdAt n /\
      let w := window now hours s in
      totalVisits h = visits_of (n_id n) w /\
      1 <= totalVisits h /\ minVisits <= totalVisits h /\
      (exists us, NoDup us /\ List.length us = uniqueUsersCount h /\
                  forall u, In u us <-> visitor (n_id n) w u) /\
      (1 <= uniqueUsersCount h)%nat /\
      Z.of_nat (uniqueUsersCount h) <= totalVisits h /\
      avgDurationPerVisit h
      = (inject_Z (durations_of (n_id n) w) / inject_Z (totalVisits h))%Q /\
      cutoffDate now hours <= lastActivity h /\
      (exists t, In t w /\ toNodeId t = n_id n /\
                 t_createdAt t = lastActivity h) /\
      (forall t, In t w -> toNodeId t = n_id n ->
                 t_createdAt t <= lastActivity h).
Proof.
  intros now hours minVisits s h Hin.
  apply aggregatedData_In in Hin as [Hmin (g & n & Hg & Hn & Hid & ->)].
  pose proof (group_by_toNodeId_grouped (window now hours s)) as [_ Hds _].
  rewrite Forall_forall in Hds.
  destruct (Hds g Hg) as [Hv Hv1 Hd Hnd Hu Hb Ha].
  cbn [totalVisits] in Hmin.
  exists n. cbn. rewrite Hid.
  split; [exact Hn|]. do 2 (split; [reflexivity|]).
  split; [exact Hv|]. split; [exact Hv1|]. split; [exact Hmin|].
  split; [exists (g_uniqueUsers g); auto|].
  assert (Hbound : Z.of_nat (List.length (g_uniqueUsers g))
                   <= g_totalVisits g).
  { rewrite Hv. apply visitors_bounded; [exact Hnd|].
    intros u Hin. now apply Hu. }
  split.
  { destruct Ha as (t & Ht & Htid & _).
    assert (Hvis : In (t_userId t) (g_uniqueUsers g))
      by (apply Hu; exists t; auto).
    destruct (g_uniqueUsers g); [contradiction|cbn; lia]. }
  split; [exact Hbound|].
  split.
  { destruct (g_totalVisits g =? 0) eqn:He;
      [apply Z.eqb_eq in He; lia|]. now rewrite Hd. }
  split.
  { destruct Ha as (t & Ht & _ & <-). now apply window_In in Ht. }
  split; [exact Ha|exact Hb].
Qed.

Lemma NoDup_map_filter {A B : Type} (f : A -> B) p (l : list A) :
  NoDup (map f l) -> NoDup (map f (filter p l)).
Proof.
  induction l as [|x l IH]; cbn; [auto|].
  intros Hnd. inversion Hnd as [|? ? Hx Hnd']; subst.
  destruct (p x); cbn; [|auto].
  constructor; [|auto].
  intros Hin. apply Hx. apply in_map_iff in Hin as (y & Hy & Hin).
  apply filter_In in Hin as [Hin _]. rewrite <- Hy. now apply in_map.
Qed.

Lemma NoDup_map_inj {A B : Type} (f : A -> B) (l : list A) x y :
  NoDup (map f l) -> In x l -> In y l -> f x = f y -> x = y.
Proof.
  induction l as [|a l IH]; [contradiction|].
  cbn. intros Hnd Hx Hy Hf. inversion Hnd as [|? ? Ha Hnd']; subst.
  destruct Hx as [->|Hx], Hy as [->|Hy]; auto.
  - elim Ha. rewrite Hf. now apply in_map.
  - elim Ha. rewrite <- Hf. now apply in_map.
Qed.

Lemma lookup_project_keys ns g :
  map hn_roomKey (lookup_project ns g)
  = map roomKey (filter (fun n => Nat.eqb (n_id n) (g_id g)) ns).
Proof. unfold lookup_project. rewrite map_map. reflexivity. Qed.

Lemma joined_keys_NoDup ns gs :
  NoDup (map roomKey ns) -> NoDup (map n_id ns) -> NoDup (map g_id gs) ->
  NoDup (map hn_roomKey (flat_map (lookup_project ns) gs)).
Proof.
  intros Hkeys Hids. induction gs as [|g gs IH]; cbn; [constructor|].
  intros Hnd. inversion Hnd as [|? ? Hg Hnd']; subst.
  rewrite map_app. apply NoDup_app.
  - rewrite lookup_project_keys. now apply NoDup_map_filter.
  - auto.
  - intros k Hk1 Hk2. rewrite lookup_project_keys in Hk1.
    apply in_map_iff in Hk1 as (n & Hn & Hin).
    apply filter_In in Hin as [Hin He]. apply Nat.eqb_eq in He.
    apply in_map_iff in Hk2 as (h & Hh & Hin2).
    apply in_flat_map in Hin2 as (g' & Hg' & Hin2).
    unfold lookup_project in Hin2.
    apply in_map_iff in Hin2 as (n' & <- & Hin').
    apply filter_In in Hin' as [Hin' He']. apply Nat.eqb_eq in He'.
    cbn in Hh.
    assert (n' = n)
      by (apply (NoDup_map_inj roomKey ns); auto; congruence).
    subst n'. apply Hg. rewrite <- He, He'. now apply in_map.
Qed.

(** X11. With unique room keys and ids, no room is ranked twice, and no
    room is missed: every stored room with at least one transition into it
    within the window, and at least [minVisits] of them, has its row. *)
Theorem aggregatedData_one_row_per_room :
  forall (now : Date) (hours minVisits : Z) (s : Store),
    NoDup (map roomKey (nodes s)) -> NoDup (node_ids s) ->
    NoDup (map hn_roomKey (aggregatedData now hours minVisits s)) /\
    forall n,
      In n (nodes s) ->
      1 <= visits_of (n_id n) (window now hours s) ->
      minVisits <= visits_of (n_id n) (window now hours s) ->
      exists h,
        In h (aggregatedData now hours minVisits s) /\
        hn_roomKey h = roomKey n /\
        totalVisits h = visits_of (n_id n) (window now hours s).
Proof.
  intros now hours minVisits s Hkeys Hids.
  pose proof (group_by_toNodeId_grouped (window now hours s))
    as [Hnd Hds Hgids].
  split.
  - unfold aggregatedData. apply NoDup_map_filter.
    now apply joined_keys_NoDup.
  - intros n Hn Hv1 Hmin.
    assert (Hin : In (n_id n) (map toNodeId (window now hours s))).
    { destruct (in_dec Nat.eq_dec (n_id n)
                  (map toNodeId (window now hours s))) as [H|H]; [exact H|].
      rewrite (visits_of_fresh _ _ H) in Hv1. lia. }
    apply Hgids in Hin. apply in_map_iff in Hin as (g & Hg & Hin).
    rewrite Forall_forall in Hds. destruct (Hds g Hin) as [Hv _ _ _ _ _ _].
    eexists. split.
    + apply aggregatedData_In. split; [|exists g, n; eauto].
      cbn. rewrite Hv, Hg. exact Hmin.
    + cbn. split; [reflexivity|]. now rewrite Hv, Hg.
Qed.

(** X12. When the window covers the whole transition log and the counters
    agree with the logs, the [totalVisits] the ranking reports for a room
    is that room's [visitCount]. *)
Theorem aggregatedData_totalVisits_is_visitCount :
  forall (now : Date) (hours minVisits : Z) (s : Store) (h : HotNode),
    counters_ok s ->
    Forall (fun t => cutoffDate now hours <= t_createdAt t) (transitions s) ->
    In h (aggregatedData now hours minVisits s) ->
    exists n, In n (nodes s) /\ hn_roomKey h = roomKey n /\
              totalVisits h = visitCount n.
Proof.
  intros now hours minVisits s h Hc Hall Hin.
  apply aggregatedData_In in Hin as [_ (g & n & Hg & Hn & Hid & ->)].
  pose proof (group_by_toNodeId_grouped (window now hours s)) as [_ Hds _].
  rewrite Forall_forall in Hds. destruct (Hds g Hg) as [Hv _ _ _ _ _ _].
  assert (Hw : window now hours s = transitions s).
  { unfold window. induction (transitions s) as [|t ts IH]; [reflexivity|].
    inversion Hall as [|? ? Ht Hts]; subst. cbn.
    apply Z.leb_le in Ht. rewrite Ht. f_equal. now apply IH. }
  unfold counters_ok in Hc. rewrite Forall_forall in Hc.
  destruct (Hc n Hn) as [Hvc _].
  exists n. cbn. split; [exact Hn|]. split; [reflexivity|].
  rewrite Hv, Hvc, Hw. congruence.
Qed.

(** ** Bounds and monotonicity of the score *)

Lemma exp_le_1 x : (x <= 0)%R -> (exp x <= 1)%R.
Proof.
  intros [Hlt| ->].
  - left. rewrite <- exp_0. now apply exp_increasing.
  - rewrite exp_0. lra.
Qed.

Lemma decay_le_1 now t (tau : R) :
  t <= now -> (0 < tau)%R ->
  (exp (- hoursSince now t / tau) <= 1)%R.
Proof.
  intros Ht Htau. apply exp_le_1. unfold hoursSince.
  assert (H : (0 <= IZR (now - t))%R) by (apply IZR_le; lia).
  assert (Hq : (0 <= IZR (now - t) / 3600000)%R)
    by (apply Rmult_le_pos; [exact H|lra]).
  assert (Hq2 : (0 <= IZR (now - t) / 3600000 / tau)%R).
  { apply Rmult_le_pos; [exact Hq|].
    left. now apply Rinv_0_lt_compat. }
  unfold Rdiv in *. rewrite Ropp_mult_distr_l_reverse. lra.
Qed.

(** X13. A room whose last activity and creation are not in the future
    scores at most 3.3, the score of the saturated room; and with counts
    and average dwell that are not negative, the score is positive. *)
Theorem score_bounds :
  forall (now : Date) (h : HotNode),
    lastActivity h <= now ->
    createdAt h <= now ->
    (score (scoreNode now h) <= 3.3)%R /\
    (0 <= totalVisits h -> (0 <= Q2R (avgDurationPerVisit h))%R ->
     (0 < score (scoreNode now h))%R).
Proof.
  intros now h Hl Hc. rewrite score_is_spec. unfold spec_score.
  pose proof (decay_le_1 now (lastActivity h) 12 Hl ltac:(lra)) as Hd1.
  pose proof (decay_le_1 now (createdAt h) 24 Hc ltac:(lra)) as Hd2.
  pose proof (exp_pos (- hoursSince now (lastActivity h) / 12)) as Hp1.
  pose proof (exp_pos (- hoursSince now (createdAt h) / 24)) as Hp2.
  pose proof (Rmin_r (IZR (totalVisits h) / 100) 1) as Hv.
  pose proof (Rmin_r (INR (uniqueUsersCount h) / 20) 1) as Hu.
  pose proof (Rmin_r (Q2R (avgDurationPerVisit h) / 300) 1) as Ha.
  split; [lra|].
  intros Hv0 Ha0.
  assert (Hv' : (0 <= Rmin (IZR (totalVisits h) / 100) 1)%R).
  { apply Rmin_glb; [|lra]. apply IZR_le in Hv0.
    apply Rmult_le_pos; [exact Hv0|lra]. }
  assert (Hu' : (0 <= Rmin (INR (uniqueUsersCount h) / 20) 1)%R).
  { apply Rmin_glb; [|lra].
    apply Rmult_le_pos; [apply pos_INR|lra]. }
  assert (Ha' : (0 <= Rmin (Q2R (avgDurationPerVisit h) / 300) 1)%R).
  { apply Rmin_glb; [|lra]. apply Rmult_le_pos; [exact Ha0|lra]. }
  lra.
Qed.

(** ** Limits and windows out of range *)

(** X15. A negative [limit] does not fall back to anything: [-k] makes the
    route drop the [k] lowest-ranked rooms and return all the others, in
    rank order; with [k] at least the number of ranked rooms the answer is
    empty. *)
Theorem rankHotRooms_negative_limit :
  forall (now : Date) (hours limit minVisits : Z) (s : Store),
    limit < 0 ->
    let sorted :=
      stable_sort score_desc
        (map (scoreNode now) (aggregatedData now hours minVisits s)) in
    let r := rankHotRooms now hours limit minVisits s in
    let k := Z.to_nat (- limit) in
    r = firstn (List.length sorted - k) sorted /\
    List.length r = (List.length sorted - k)%nat /\
    (exists dropped, sorted = r ++ dropped /\
       List.length dropped = Nat.min k (List.length sorted) /\
       forall a b, In a r -> In b dropped -> higher_or_same a b) /\
    ((List.length sorted <= k)%nat -> r = []).
Proof.
  intros now hours limit minVisits s Hneg sorted r k.
  assert (Hr : r = firstn (List.length sorted - k) sorted)
    by (subst r k sorted; unfold rankHotRooms; now apply slice0_negative).
  pose proof (stable_sort_sorted score_desc score_desc_total
                score_desc_trans
                (map (scoreNode now) (aggregatedData now hours minVisits s)))
    as Hsorted. fold sorted in Hsorted.
  destruct (sorted_firstn_split score_desc (List.length sorted - k) _ Hsorted)
    as [_ Hcut].
  split; [exact Hr|]. rewrite Hr. split; [|split].
  - rewrite length_firstn. lia.
  - exists (skipn (List.length sorted - k) sorted).
    split; [now rewrite firstn_skipn|]. split.
    + rewrite length_skipn. lia.
    + intros a b Ha Hb. apply score_desc_spec. now apply Hcut.
  - intros Hle. replace (List.length sorted - k)%nat with 0%nat by lia.
    reflexivity.
Qed.

(** X16. A negative [hours] puts the cut-off in the future: as long as
    that cut-off is still a valid date and no transition is dated after
    [now], nothing is in the window and the ranking is empty, whatever the
    other parameters. *)
Theorem rankHotRooms_negative_hours :
  forall (now : Date) (hours limit minVisits : Z) (s : Store),
    hours < 0 ->
    valid_date now ->
    valid_date (cutoffDate now hours) ->
    Forall (fun t => t_createdAt t <= now) (transitions s) ->
    rankHotRooms now hours limit minVisits s = [].
Proof.
  intros now hours limit minVisits s Hneg _ _ Hpast.
  assert (Hw : filter (fun t => cutoffDate now hours <=? t_createdAt t)
                      (transitions s) = []).
  { induction (transitions s) as [|t ts IH]; [reflexivity|].
    inversion Hpast as [|? ? Ht Hts]; subst. cbn.
    destruct (cutoffDate now hours <=? t_createdAt t) eqn:He; [|auto].
    apply Z.leb_le in He. unfold cutoffDate, MS_PER_HOUR in He. lia. }
  unfold rankHotRooms, aggregatedData. rewrite Hw. cbn.
  unfold slice0. cbn. now rewrite firstn_nil.
Qed.

(** ** The client *)

Lemma trimEnd_cases s : trimEnd s = "" \/ ends_inked (trimEnd s) = true.
Proof.
  induction s as [|c s IH]; [now left|].
  cbn [trimEnd]. destruct (trimEnd s) as [|c2 r] eqn:Hr.
  - destruct (is_white c) eqn:Hc; [now left|].
    right. cbn. now rewrite Hc.
  - right. destruct IH as [IH|IH]; [discriminate|]. exact IH.
Qed.

Lemma ends_inked_trimStart s :
  ends_inked s = true -> ends_inked (trimStart s) = true.
Proof.
  induction s as [|c s IH]; [discriminate|].
  intros H. cbn [trimStart]. destruct (is_white c) eqn:Hc; [|exact H].
  apply IH. destruct s as [|c2 s]; [|exact H].
  cbn in H. rewrite Hc in H. discriminate.
Qed.

Lemma ends_inked_trimEnd s : ends_inked s = true -> trimEnd s <> "".
Proof.
  induction s as [|c s IH]; [discriminate|].
  intros H. cbn [trimEnd]. destruct s as [|c2 s].
  - cbn in *. apply negb_true_iff in H. rewrite H. discriminate.
  - assert (Hs : trimEnd (String c2 s) <> "") by (apply IH; exact H).
    destruct (trimEnd (String c2 s)); [contradiction|discriminate].
Qed.

Lemma ends_inked_trim s : ends_inked s = true -> trim s <> "".
Proof.
  intros H. unfold trim. now apply ends_inked_trimEnd, ends_inked_trimStart.
Qed.

Lemma prefix_go text :
  String.prefix "/go " text = true ->
  exists rest, text = String "/" (String "g" (String "o" (String " " rest))).
Proof.
  intros H.
  destruct text as [|a1 [|a2 [|a3 [|a4 rest]]]];
    cbn [String.prefix] in H;
    repeat match type of H with
           | context [ascii_dec ?x ?y] => destruct (ascii_dec x y); subst
           end; try discriminate.
  now exists rest.
Qed.

(** X17. A [/go] line is a room change and never chat: when the trimmed
    content of the message box starts with ["/go "], the words after it,
    trimmed, are a non-empty room key (the inner guard on the key never
    fails), the handler does exactly what [goToNode] does for that key with
    type GO_COMMAND, and it sends no [sendMessage]. *)
Theorem go_command_changes_room :
  forall (now now' : Date) (value : string) (c : Client),
    String.prefix "/go " (trim value) = true ->
    let key := trim (substring_from 4 (trim value)) in
    key <> "" /\
    handleMessageInput now now' value c
    = goToNode now now' key "GO_COMMAND" c /\
    filter is_chat (snd (handleMessageInput now now' value c)) = [].
Proof.
  intros now now' value c Hgo key.
  destruct (prefix_go _ Hgo) as [rest Hrest].
  assert (Hink : ends_inked (trim value) = true).
  { destruct (trimEnd_cases (trimStart value)) as [He|He]; [|exact He].
    unfold trim in Hrest. rewrite He in Hrest. discriminate. }
  assert (Hkey : key <> "").
  { subst key. rewrite Hrest in Hink |- *. cbn [substring_from].
    apply ends_inked_trim. destruct rest as [|r0 rest]; [discriminate|].
    exact Hink. }
  assert (Hh : handleMessageInput now now' value c
               = goToNode now now' key "GO_COMMAND" c).
  { unfold handleMessageInput. rewrite Hgo. fold key.
    destruct (String.eqb (trim value) "") eqn:He.
    - apply String.eqb_eq in He. rewrite He in Hrest. discriminate.
    - destruct (String.eqb key "") eqn:Hk; [|reflexivity].
      apply String.eqb_eq in Hk. contradiction. }
  split; [exact Hkey|]. split; [exact Hh|].
  rewrite Hh. unfold goToNode.
  destruct (truthy (Some key)); [|reflexivity].
  destruct (currentUser_id c); reflexivity.
Qed.

Lemma round_seconds_bounds ms :
  1000 * round_seconds ms - 500 <= ms < 1000 * round_seconds ms + 500.
Proof.
  unfold round_seconds.
  pose proof (Z.div_mod (ms + 500) 1000 ltac:(lia)).
  pose proof (Z.mod_pos_bound (ms + 500) 1000 ltac:(lia)). lia.
Qed.

(** X18. What [goToNode] reports to the server: with a user id and a
    non-empty key it sends one join, from the room the client was in to the
    new key, followed by a recommendation request for the new key, and the
    client is then in the new room with a fresh entry time.  The duration
    sent is 0 when no entry time is set, and otherwise the time since entry
    to the nearest second: never negative when the clock has not gone back,
    and within half a second of the true dwell.  Without a user id or with
    an empty key nothing is sent and nothing changes. *)
Theorem goToNode_reports_dwell :
  forall (now now' : Date) (key ty : string) (c : Client),
    (key = "" \/ currentUser_id c = None ->
     goToNode now now' key ty c = (c, [])) /\
    (forall uid, key <> "" -> currentUser_id c = Some uid ->
     exists dur,
       goToNode now now' key ty c
       = ({| currentUser_id := Some uid; currentRoomKey := Some key;
             nodeEntryTime := Some now';
             recommendTarget := recommendTarget c |},
          [ToJoin {| jd_userId := Some uid;
                     jd_fromNodeKey := currentRoomKey c;
                     jd_toNodeKey := Some key;
                     jd_duration := Some dur;
                     jd_transitionType := Some ty |};
           ToGetRecommendation key]) /\
       (entry_time c = None -> dur = 0) /\
       (forall t, entry_time c = Some t ->
          1000 * dur - 500 <= now - t < 1000 * dur + 500 /\
          (t <= now -> 0 <= dur))).
Proof.
  intros now now' key ty c. unfold goToNode. split.
  - intros [->|Hu]; [reflexivity|].
    rewrite Hu. now destruct (truthy (Some key)).
  - intros uid Hk Hu. rewrite Hu. cbn [truthy].
    destruct (String.eqb key "") eqn:He;
      [apply String.eqb_eq in He; contradiction|].
    eexists. split; [reflexivity|].
    destruct (entry_time c) as [t|]; split; try discriminate; auto.
    intros t0 [= <-].
    pose proof (round_seconds_bounds (now - t)) as Hb.
    split; [exact Hb|]. intros Hle. lia.
Qed.

Lemma goToNode_sends now now' key ty c uid :
  key <> "" -> currentUser_id c = Some uid ->
  goToNode now now' key ty c
  = ({| currentUser_id := Some uid; currentRoomKey := Some key;
        nodeEntryTime := Some now'; recommendTarget := recommendTarget c |},
     [ToJoin {| jd_userId := Some uid;
                jd_fromNodeKey := currentRoomKey c;
                jd_toNodeKey := Some key;
                jd_duration :=
                  Some (match entry_time c with
                        | Some t => round_seconds (now - t)
                        | None => 0
                        end);
                jd_transitionType := Some ty |};
      ToGetRecommendation key]).
Proof.
  intros Hk Hu. unfold goToNode. rewrite Hu. cbn [truthy].
  destruct (String.eqb key "") eqn:He;
    [apply String.eqb_eq in He; contradiction|reflexivity].
Qed.

(** X19. What the client sends is never turned away by the server's
    guards: the join that [goToNode] emits is recorded as one Transition of
    that user into the room stored under the key, and a message the client
    then sends from that room is stored in that same room under the same
    user id. *)
Theorem client_join_then_message_is_stored :
  forall (now now' t1 t2 : Date) (rnd : nat) (key ty msg : string)
         (c : Client) (uid : ObjectId) (s : Store),
    currentUser_id c = Some uid ->
    key <> "" ->
    let c1 := fst (goToNode now now' key ty c) in
    let s1 := deliver_all t1 rnd (snd (goToNode now now' key ty c)) s in
    exists t n,
      transitions s1 = transitions s ++ [t] /\
      t_userId t = uid /\
      findOne (by_roomKey key) (nodes s1) = Some n /\
      toNodeId t = n_id n /\
      exists sd m,
        emitSendMessage msg c1 = [ToSend sd] /\
        messages (fst (deliver t2 rnd (ToSend sd) s1)) = messages s1 ++ [m] /\
        nodeId m = n_id n /\ text m = msg /\ m_userId m = uid.
Proof.
  intros now now' t1 t2 rnd key ty msg c uid s Hu Hk c1 s1.
  assert (Htruthy : truthy (Some key) = Some key).
  { cbn. destruct (String.eqb key "") eqn:He; [|reflexivity].
    apply String.eqb_eq in He. contradiction. }
  subst c1 s1. rewrite (goToNode_sends now now' key ty c uid Hk Hu).
  cbn [fst snd]. unfold deliver_all. cbn [fold_left deliver fst].
  match goal with
  | |- context [joinNodeAndLogTransition t1 ?d s] => set (jd := d) in *
  end.
  set (s1 := fst (joinNodeAndLogTransition t1 jd s)).
  pose proof (join_store t1 jd s uid key eq_refl Htruthy) as Hstore.
  fold s1 in Hstore.
  destruct (resolveToNode_logs t1 key uid (after_source t1 jd s))
    as (Hts & _ & _).
  destruct (after_source_logs t1 jd s) as (Hts' & _ & _).
  pose proof (resolveToNode_result t1 key uid (after_source t1 jd s)) as Hn.
  set (n := fst (resolveToNode t1 key uid (after_source t1 jd s))) in *.
  eexists. exists n.
  assert (Hnodes : findOne (by_roomKey key) (nodes s1) = Some n)
    by (rewrite Hstore; exact Hn).
  split; [rewrite Hstore; cbn [transitions Transition_create];
          rewrite Hts, Hts'; reflexivity|].
  split; [reflexivity|]. split; [exact Hnodes|]. split; [reflexivity|].
  unfold emitSendMessage. cbn [currentRoomKey currentUser_id].
  rewrite Htruthy. eexists. eexists. split; [reflexivity|].
  cbn [deliver]. unfold sendMessage. cbn [sd_userId sd_nodeKey sd_text].
  rewrite Hnodes.
  match goal with
  | |- context [match ?x with Some _ => _ | None => _ end] => destruct x
  end; cbn; repeat split; reflexivity.
Qed.

(** X20. The recommendation button follows the current server's answer:
    after the reply to a request for room [key], over rooms whose keys are
    not empty, the button is hidden exactly when no other room exists, and
    otherwise aims at a stored room other than [key]; a click then emits a
    join into that room of type RECOMMENDATION. *)
Theorem recommendation_button_follows_reply :
  forall (rnd : nat) (key : string) (s : Store) (c : Client),
    Forall (fun n => roomKey n <> "") (nodes s) ->
    let c' := fold_left (fun c e => receive e c)
                        (getRecommendation rnd key s) c in
    match recommendTarget c' with
    | Some k =>
        k <> key /\ In k (map roomKey (nodes s)) /\
        forall now now' uid,
          currentUser_id c = Some uid ->
          exists dur,
            snd (click_recommendation now now' c')
            = [ToJoin {| jd_userId := Some uid;
                         jd_fromNodeKey := currentRoomKey c;
                         jd_toNodeKey := Some k;
                         jd_duration := Some dur;
                         jd_transitionType := Some "RECOMMENDATION" |};
               ToGetRecommendation k]
    | None => forall n, In n (nodes s) -> roomKey n = key
    end.
Proof.
  intros rnd key s c Hne c'. subst c'. unfold getRecommendation.
  destruct (recommendation rnd key s) as [|m l] eqn:Hrec;
    cbn [fold_left receive].
  - cbn. intros n Hin. destruct (String.eqb (roomKey n) key) eqn:He;
      [now apply String.eqb_eq|].
    apply String.eqb_neq in He.
    destruct (recommendation_nonempty rnd key s n Hin He) as [x Hx].
    congruence.
  - destruct (recommendation_differs rnd key s m) as [Hin Hdiff];
      [rewrite Hrec; now left|].
    rewrite Forall_forall in Hne. specialize (Hne m Hin).
    assert (Ht : truthy (Some (roomKey m)) = Some (roomKey m)).
    { cbn. destruct (String.eqb (roomKey m) "") eqn:He; [|reflexivity].
      apply String.eqb_eq in He. contradiction. }
    unfold click_recommendation.
    cbn [recommendTarget on_recommendationResult]. rewrite Ht.
    split; [exact Hdiff|]. split; [now apply in_map|].
    intros now now' uid Hu.
    rewrite (goToNode_sends now now' (roomKey m) "RECOMMENDATION" _ uid Hne)
      by exact Hu.
    eexists. reflexivity.
Qed.

(** ** First sight of a [localId] *)

(** X21. A [userSetup] for a [localId] no record carries adds exactly one
    User, after the existing ones: it has that [localId], the nickname of
    the call, [createdAt] and [lastSeenAt] equal to the clock reading, and
    of the attribution fields only those the call supplied non-empty.  The
    reply carries the new record's [_id]; rooms, messages and transitions
    are untouched. *)
Theorem userSetup_creates_user :
  forall (now : Date) (d : UserSetupData) (s : Store),
    findOne (by_localId (us_localId d)) (users s) = None ->
    exists u,
      users (fst (userSetup now d s)) = users s ++ [u] /\
      localId u = us_localId d /\ nickname u = us_nickname d /\
      u_createdAt u = now /\ lastSeenAt u = now /\
      (forall blank, no_attribution blank -> attribution_lww d blank u) /\
      filter is_reply (snd (userSetup now d s))
      = [EmitSessionEstablished (u_id u) (us_nickname d)] /\
      nodes (fst (userSetup now d s)) = nodes s /\
      messages (fst (userSetup now d s)) = messages s /\
      transitions (fst (userSetup now d s)) = transitions s.
Proof.
  intros now d s Hnone.
  exists (user_insert now (nextId s) (us_localId d) (updateFields now d)).
  rewrite userSetup_users, userSetup_reply.
  unfold findOneAndUpdate. rewrite Hnone. cbn [fst snd].
  split; [reflexivity|]. do 4 (split; [reflexivity|]).
  split.
  { intros blank (H1 & H2 & H3 & H4 & H5).
    pose proof (user_set_attribution now d
                  {| u_id := nextId s; localId := us_localId d;
                     nickname := ""; u_createdAt := now; lastSeenAt := now;
                     utmSource := None; utmMedium := None;
                     utmCampaign := None; utmContent := None;
                     utmTerm := None |}) as H.
    unfold attribution_lww in *. cbn [utmSource utmMedium utmCampaign
                                      utmContent utmTerm] in H.
    rewrite H1, H2, H3, H4, H5. exact H. }
  split; [reflexivity|].
  unfold userSetup, findOneAndUpdate. rewrite Hnone. cbn. auto.
Qed.

(** ** The history window under new messages *)

Lemma insert_sorted_snoc {A : Type} (before : A -> A -> bool) x l m :
  before x m = true ->
  insert_sorted before x (l ++ [m]) = insert_sorted before x l ++ [m].
Proof.
  intros Hxm. induction l as [|y l IH]; cbn.
  - now rewrite Hxm.
  - destruct (before x y); [reflexivity|]. now rewrite IH.
Qed.

Lemma stable_sort_snoc {A : Type} (before : A -> A -> bool) l m :
  Forall (fun x => before x m = true) l ->
  stable_sort before (l ++ [m]) = stable_sort before l ++ [m].
Proof.
  induction 1 as [|x l Hx Hl IH]; [reflexivity|].
  cbn. rewrite IH. now apply insert_sorted_snoc.
Qed.

(** X22. The history of a room is its first 50 messages for good: when
    [sendMessage] stores a message that is not older than the room's
    messages, the history a join would receive is unchanged if the room
    already held 50 messages or more, and otherwise gains the new message
    as its last item. *)
Theorem full_room_history_is_frozen :
  forall (now : Date) (d : SendData) (s : Store)
         (uid : ObjectId) (k : string) (n : Node),
    sd_userId d = Some uid ->
    sd_nodeKey d = Some k ->
    findOne (by_roomKey k) (nodes s) = Some n ->
    Forall (fun x => nodeId x = n_id n -> m_createdAt x <= now) (messages s) ->
    let room := filter (fun m => Nat.eqb (nodeId m) (n_id n)) (messages s) in
    let before := fetchHistory (n_id n) HISTORY_LIMIT (messages s) in
    let after :=
      fetchHistory (n_id n) HISTORY_LIMIT (messages (fst (sendMessage now d s))) in
    ((50 <= List.length room)%nat -> after = before) /\
    ((List.length room < 50)%nat ->
     exists m, after = before ++ [m] /\ text m = sd_text d /\
               m_userId m = uid /\ m_createdAt m = now).
Proof.
  intros now d s uid k n Hu Hk Hn Hpast room before after.
  destruct (sendMessage_cases now d s)
    as [Hsame|(uid' & k0 & n0 & Hu' & Hk' & Hn' & Hs')].
  { exfalso. unfold sendMessage in Hsame. rewrite Hu, Hk, Hn in Hsame.
    match type of Hsame with
    | context [match ?x with Some _ => _ | None => _ end] => destruct x
    end; cbn in Hsame;
      apply (f_equal (fun st => List.length (messages st))) in Hsame;
      cbn in Hsame; rewrite length_app in Hsame; cbn in Hsame; lia. }
  rewrite Hk in Hk'. injection Hk' as <-.
  rewrite Hn in Hn'. injection Hn' as <-.
  rewrite Hu in Hu'. injection Hu' as <-.
  set (m := {| m_id := nextId s; nodeId := n_id n; m_userId := uid;
               text := sd_text d; m_createdAt := now |}) in *.
  assert (Hafter : after
            = firstn 50 (stable_sort createdAt_asc room ++ [m])).
  { subst after. rewrite Hs'. cbn [messages]. unfold fetchHistory.
    rewrite filter_app. cbn [filter nodeId m]. rewrite Nat.eqb_refl.
    fold room. rewrite stable_sort_snoc; [reflexivity|].
    subst room. apply Forall_forall. intros x Hx.
    apply filter_In in Hx as [Hx He]. apply Nat.eqb_eq in He.
    rewrite Forall_forall in Hpast. unfold createdAt_asc. cbn.
    apply Z.leb_le. now apply Hpast. }
  assert (Hbefore : before = firstn 50 (stable_sort createdAt_asc room))
    by reflexivity.
  assert (Hlen : List.length (stable_sort createdAt_asc room)
                 = List.length room) by apply stable_sort_length.
  rewrite Hafter, Hbefore, firstn_app, Hlen. split.
  - intros Hfull. replace (50 - List.length room)%nat with 0%nat by lia.
    cbn. now rewrite app_nil_r.
  - intros Hroom. exists m.
    rewrite (firstn_all2 (n := 50) (stable_sort createdAt_asc room))
      by lia.
    destruct (50 - List.length room)%nat eqn:Hd; [lia|].
    cbn. rewrite firstn_nil. auto.
Qed.

(** X23. After [handleLeaveChat], or before any room was entered, the next
    room change is logged as an entry from nowhere: the Transition the
    server appends for it has no [fromNodeId], duration 0 and the user id
    of the client. *)
Theorem join_after_leave_has_no_source :
  forall (now now' t1 : Date) (rnd : nat) (key ty : string)
         (c : Client) (uid : ObjectId) (s : Store),
    currentUser_id c = Some uid ->
    key <> "" ->
    let c0 := handleLeaveChat c in
    exists t,
      transitions
        (deliver_all t1 rnd (snd (goToNode now now' key ty c0)) s)
      = transitions s ++ [t] /\
      fromNodeId t = None /\ duration t = 0 /\ t_userId t = uid /\
      transitionType t = Some ty /\
      forall msg, emitSendMessage msg c0 = [].
Proof.
  intros now now' t1 rnd key ty c uid s Hu Hk c0.
  assert (Hu0 : currentUser_id c0 = Some uid) by exact Hu.
  assert (Htruthy : truthy (Some key) = Some key).
  { cbn. destruct (String.eqb key "") eqn:He; [|reflexivity].
    apply String.eqb_eq in He. contradiction. }
  rewrite (goToNode_sends now now' key ty c0 uid Hk Hu0).
  cbn [snd]. unfold deliver_all. cbn [fold_left deliver fst].
  match goal with
  | |- context [joinNodeAndLogTransition t1 ?d s] => set (jd := d) in *
  end.
  rewrite (join_store t1 jd s uid key eq_refl Htruthy).
  destruct (resolveToNode_logs t1 key uid (after_source t1 jd s))
    as (Hts & _ & _).
  destruct (after_source_logs t1 jd s) as (Hts' & _ & _).
  eexists. cbn [transitions Transition_create]. rewrite Hts, Hts'.
  split; [reflexivity|]. cbn. repeat split; reflexivity.
Qed.

(** ** Instances of the properties above on sample data *)

Lemma room_A_ok : store_ok room_A_no_users.
Proof. apply store_ok_join. exact store_ok_empty. Qed.

Lemma two_rooms_ok : store_ok two_rooms.
Proof. apply store_ok_join. exact room_A_ok. Qed.

Lemma two_rooms_counted : counters_ok two_rooms.
Proof.
  apply counters_ok_join; [exact room_A_ok|].
  apply counters_ok_join; [exact store_ok_empty|constructor].
Qed.

Lemma join_appends_transition_instance :
  exists t,
    transitions (fst (joinNodeAndLogTransition 2000 join_A_to_B
                        room_A_no_users))
    = transitions room_A_no_users ++ [t] /\
    t_userId t = 7%nat /\ duration t = 30.
Proof.
  destruct (join_appends_transition 2000 join_A_to_B room_A_no_users
              7%nat "B" eq_refl eq_refl)
    as (t & n & Ht & Hu & _ & Hd & _).
  exists t. auto.
Defined.

Lemma sendMessage_counts_message_instance :
  exists n',
    findOne (by_roomKey "A")
      (nodes (fst (sendMessage 3000 ghost_send room_A_no_users))) = Some n' /\
    messageCount n' = 1.
Proof.
  destruct (sendMessage_counts_message 3000 ghost_send room_A_no_users
              7%nat "A" _ (ok_room_ids _ room_A_ok) eq_refl eq_refl eq_refl)
    as (n' & Hf & Hm & _).
  exists n'. split; [exact Hf|]. rewrite Hm. reflexivity.
Defined.

Lemma session_message_is_broadcast_instance :
  store_ok empty_store /\
  exists uid,
    filter is_reply (snd (userSetup 10 first_setup empty_store))
    = [EmitSessionEstablished uid "Brave Tiger"].
Proof.
  split; [exact store_ok_empty|].
  destruct (session_message_is_broadcast 10 20 30 first_setup empty_store
              None None (Some "INITIAL") "A" "hi" store_ok_empty
              ltac:(discriminate))
    as (uid & Hreply & _).
  exists uid. exact Hreply.
Defined.

Lemma join_history_reply_instance :
  exists n t,
    findOne (by_roomKey "B")
      (nodes (fst (joinNodeAndLogTransition 2000 join_A_to_B
                     room_A_no_users))) = Some n /\
    transitions (fst (joinNodeAndLogTransition 2000 join_A_to_B
                        room_A_no_users))
    = transitions room_A_no_users ++ [t].
Proof.
  destruct (join_history_reply 2000 join_A_to_B room_A_no_users
              7%nat "B" eq_refl eq_refl) as (n & t & Hn & Ht & _).
  exists n, t. auto.
Defined.

Lemma join_new_room_empty_history_instance :
  filter is_reply
    (snd (joinNodeAndLogTransition 2000 join_A_to_B room_A_no_users))
  = [EmitHistory []].
Proof.
  exact (proj1 (join_new_room_empty_history 2000 join_A_to_B
                  room_A_no_users 7%nat "B" room_A_ok eq_refl eq_refl
                  eq_refl)).
Defined.

Lemma getRecommendation_other_room_instance :
  exists r, getRecommendation 3 "A" two_rooms = [EmitRecommendationResult r]
            /\ r <> None.
Proof.
  destruct (getRecommendation_other_room 3 "A" two_rooms)
    as (r & Hr & _ & Hsome).
  exists r. split; [exact Hr|]. apply Hsome.
  eexists. split; [right; left; reflexivity|discriminate].
Defined.

Lemma getRecommendation_v1_other_room_instance :
  ServerV1.getRecommendation 3 "A" room_A_no_users = [].
Proof.
  apply (proj2 (getRecommendation_v1_other_room 3 "A" room_A_no_users)).
  intros n [<-|[]]. reflexivity.
Defined.

Lemma aggregatedData_describes_window_instance :
  exists h, In h (aggregatedData 5000 24 1 two_rooms) /\ 1 <= totalVisits h.
Proof.
  assert (Hin : exists h, In h (aggregatedData 5000 24 1 two_rooms))
    by (eexists; vm_compute; left; reflexivity).
  destruct Hin as [h Hin]. exists h. split; [exact Hin|].
  destruct (aggregatedData_describes_window 5000 24 1 two_rooms h Hin)
    as (n & _ & _ & _ & _ & H1 & _).
  exact H1.
Defined.

Lemma aggregatedData_one_row_per_room_instance :
  NoDup (map hn_roomKey (aggregatedData 5000 24 1 two_rooms)).
Proof.
  exact (proj1 (aggregatedData_one_row_per_room 5000 24 1 two_rooms
                  (ok_room_keys _ two_rooms_ok) (ok_room_ids _ two_rooms_ok))).
Defined.

Lemma window_covers_two_rooms :
  Forall (fun t => cutoffDate 5000 24 <= t_createdAt t)
         (transitions two_rooms).
Proof. vm_compute. repeat constructor; discriminate. Qed.

Lemma aggregatedData_totalVisits_instance :
  exists h n,
    In h (aggregatedData 5000 24 1 two_rooms) /\ In n (nodes two_rooms) /\
    totalVisits h = visitCount n.
Proof.
  assert (Hin : exists h, In h (aggregatedData 5000 24 1 two_rooms))
    by (eexists; vm_compute; left; reflexivity).
  destruct Hin as [h Hin].
  destruct (aggregatedData_totalVisits_is_visitCount 5000 24 1 two_rooms h
              two_rooms_counted window_covers_two_rooms Hin)
    as (n & Hn & _ & Hv).
  exists h, n. auto.
Defined.

Lemma score_bounds_instance :
  (score (scoreNode 5000%Z (saturated 5000%Z "A")) <= 3.3)%R.
Proof.
  apply (score_bounds 5000 (saturated 5000 "A")); cbn; lia.
Defined.

Lemma rankHotRooms_negative_limit_instance :
  List.length (rankHotRooms 5000 24 (-1) 1 two_rooms) = 1%nat.
Proof.
  destruct (rankHotRooms_negative_limit 5000 24 (-1) 1 two_rooms
              ltac:(lia)) as (_ & Hlen & _).
  rewrite Hlen, stable_sort_length, length_map. vm_compute. reflexivity.
Defined.

Lemma rankHotRooms_negative_hours_instance :
  valid_date (cutoffDate 5000 (-1)) /\
  rankHotRooms 5000 (-1) 5 1 two_rooms = [].
Proof.
  assert (Hv : forall t, -10000000 <= t <= 10000000 -> valid_date t)
    by (unfold valid_date, MAX_TIME; lia).
  split; [apply Hv; vm_compute; split; discriminate|].
  apply rankHotRooms_negative_hours; [lia| | |].
  - apply Hv. lia.
  - apply Hv. vm_compute. split; discriminate.
  - vm_compute. repeat constructor; discriminate.
Defined.

Lemma go_command_changes_room_instance :
  trim (substring_from 4 (trim "  /go  room 12  ")) <> "" /\
  filter is_chat
    (snd (handleMessageInput 5000 5001 "  /go  room 12  "
            {| currentUser_id := Some 3%nat; currentRoomKey := Some "A";
               nodeEntryTime := Some 1400; recommendTarget := None |})) = [].
Proof.
  destruct (go_command_changes_room 5000 5001 "  /go  room 12  "
              {| currentUser_id := Some 3%nat; currentRoomKey := Some "A";
                 nodeEntryTime := Some 1400; recommendTarget := None |}
              eq_refl) as (Hk & _ & Hc).
  split; [exact Hk|exact Hc].
Defined.

Lemma goToNode_reports_dwell_instance :
  exists dur,
    snd (goToNode 5000 5001 "B" "GO_COMMAND"
           {| currentUser_id := Some 3%nat; currentRoomKey := Some "A";
              nodeEntryTime := Some 1400; recommendTarget := None |})
    = [ToJoin {| jd_userId := Some 3%nat; jd_fromNodeKey := Some "A";
                 jd_toNodeKey := Some "B"; jd_duration := Some dur;
                 jd_transitionType := Some "GO_COMMAND" |};
       ToGetRecommendation "B"] /\
    0 <= dur.
Proof.
  destruct (proj2 (goToNode_reports_dwell 5000 5001 "B" "GO_COMMAND"
              {| currentUser_id := Some 3%nat; currentRoomKey := Some "A";
                 nodeEntryTime := Some 1400; recommendTarget := None |})
              3%nat ltac:(discriminate) eq_refl)
    as (dur & Hgo & _ & Hdur).
  exists dur. split; [rewrite Hgo; reflexivity|].
  apply (Hdur 1400 eq_refl). lia.
Defined.

Lemma client_join_then_message_instance :
  exists t,
    transitions
      (deliver_all 6000 0
         (snd (goToNode 5000 5001 "B" "GO_COMMAND"
                 {| currentUser_id := Some 7%nat; currentRoomKey := Some "A";
                    nodeEntryTime := Some 1400; recommendTarget := None |}))
         room_A_no_users)
    = transitions room_A_no_users ++ [t].
Proof.
  destruct (client_join_then_message_is_stored 5000 5001 6000 7000 0
              "B" "GO_COMMAND" "hi"
              {| currentUser_id := Some 7%nat; currentRoomKey := Some "A";
                 nodeEntryTime := Some 1400; recommendTarget := None |}
              7%nat room_A_no_users eq_refl ltac:(discriminate))
    as (t & n & Ht & _).
  exists t. exact Ht.
Defined.

Lemma recommendation_button_instance :
  recommendTarget
    (fold_left (fun c e => receive e c)
       (getRecommendation 3 "A" room_A_no_users)
       {| currentUser_id := Some 7%nat; currentRoomKey := Some "A";
          nodeEntryTime := Some 1400; recommendTarget := Some "Z" |})
  = None.
Proof.
  pose proof (recommendation_button_follows_reply 3 "A" room_A_no_users
                {| currentUser_id := Some 7%nat; currentRoomKey := Some "A";
                   nodeEntryTime := Some 1400; recommendTarget := Some "Z" |}
                (ok_keys_nonempty _ room_A_ok)) as H.
  cbv zeta in H.
  destruct (recommendTarget _) as [k|]; [|reflexivity].
  destruct H as (Hne & [Hk|[]] & _). elim Hne. now rewrite <- Hk.
Defined.

Lemma userSetup_creates_user_instance :
  exists u, users (fst (userSetup 10 first_setup empty_store)) = [u] /\
            nickname u = "Brave Tiger".
Proof.
  destruct (userSetup_creates_user 10 first_setup empty_store eq_refl)
    as (u & Hus & _ & Hn & _).
  exists u. split; [exact Hus|exact Hn].
Defined.

Lemma full_room_history_instance :
  exists m,
    fetchHistory 0%nat HISTORY_LIMIT
      (messages (fst (sendMessage 3000 ghost_send room_A_no_users)))
    = fetchHistory 0%nat HISTORY_LIMIT (messages room_A_no_users) ++ [m].
Proof.
  destruct (full_room_history_is_frozen 3000 ghost_send room_A_no_users
              7%nat "A" _ eq_refl eq_refl eq_refl (Forall_nil _))
    as [_ Hfew].
  destruct Hfew as (m & Hm & _); [cbn; lia|].
  exists m. exact Hm.
Defined.

Lemma join_after_leave_instance :
  exists t,
    transitions
      (deliver_all 6000 0
         (snd (goToNode 5000 5001 "B" "GO_COMMAND"
                 (handleLeaveChat
                    {| currentUser_id := Some 7%nat;
                       currentRoomKey := Some "A";
                       nodeEntryTime := Some 1400;
                       recommendTarget := None |})))
         room_A_no_users)
    = transitions room_A_no_users ++ [t] /\
    fromNodeId t = None /\ duration t = 0.
Proof.
  destruct (join_after_leave_has_no_source 5000 5001 6000 0 "B" "GO_COMMAND"
              {| currentUser_id := Some 7%nat; currentRoomKey := Some "A";
                 nodeEntryTime := Some 1400; recommendTarget := None |}
              7%nat room_A_no_users eq_refl ltac:(discriminate))
    as (t & Ht & Hf & Hd & _).
  exists t. auto.
Defined.
